(** * DraggableLetters and StaggeredParagraph

    Shallow embedding of the [DraggableLetters] component published in
    [apps/docs/constants/TextComponent/draggableLettersRaw.ts] (layout pass
    and drag binding) and of the effect of [StaggeredParagraph] published in
    [apps/docs/constants/TextComponent/staggeredParagraphRaw.ts].

    Modelling conventions.
    - A JavaScript [number] is modelled twice.  In [Layout] and [Component]
      it is an exact rational ([Q]); results there are stated up to [Qeq]
      ([==]), or with plain equality where the code copies a value without
      computing.  They are the results in which rounding plays no part: the
      value is the code's own expression, or no arithmetic is involved.  In
      [Double] the same layout pass computes in IEEE 754 binary64, as the
      code does; it is used where rounding decides a result.
    - A JavaScript string is a [string]; each character stands for one
      UTF-16 code unit, which is what [split("")] and [length] count.
    - A JavaScript array of [T | null] is a [list (option T)]; [None] is
      [null], [undefined] or a hole, which [?.] and [??] treat alike.
    - Effects are functions on an explicit component state; the calls they
      make to the drag, split and animation libraries are recorded in that
      state. *)

From Stdlib Require Import List String Ascii Bool Arith ZArith QArith Lia Lqa.
From Stdlib Require Floats.
Import ListNotations.

Local Open Scope Q_scope.

(** ** The JavaScript operations the component uses *)

Module JS.

(** [o ?? d] *)
Definition nullish {A : Type} (o : option A) (d : A) : A :=
  match o with
  | Some v => v
  | None => d
  end.

(** [a[i]]: out of range reads give [undefined]. *)
Definition array_get {A : Type} (a : list (option A)) (i : nat) : option A :=
  match nth_error a i with
  | Some v => v
  | None => None
  end.

(** [a[i] = v]: a write past the end extends the array with holes. *)
Fixpoint array_set {A : Type} (a : list (option A)) (i : nat) (v : option A)
  : list (option A) :=
  match i, a with
  | O, [] => [v]
  | O, _ :: t => v :: t
  | S i', [] => None :: array_set [] i' v
  | S i', h :: t => h :: array_set t i' v
  end.

(** [s.split("")] *)
Fixpoint split_chars (s : string) : list string :=
  match s with
  | EmptyString => []
  | String a s' => String a EmptyString :: split_chars s'
  end.

(** The (element, index) pairs that [map] and [forEach] hand to their
    callback. *)
Definition entries_from {A : Type} (k : nat) (l : list A) : list (A * nat) :=
  combine l (seq k (List.length l)).

Definition entries {A : Type} (l : list A) : list (A * nat) :=
  entries_from 0 l.

(** [l.map((x, i) => f(x, i))] *)
Definition mapi {A B : Type} (f : A -> nat -> B) (l : list A) : list B :=
  map (fun xi => f (fst xi) (snd xi)) (entries l).

(** [l.forEach((x, i) => body)], the body acting on a state [S]. *)
Definition forEach {A S : Type} (body : A -> nat -> S -> S) (l : list A) (st : S)
  : S :=
  fold_left (fun st xi => body (fst xi) (snd xi) st) (entries l) st.

(** [l.reduce(f, init)] *)
Definition reduce {A B : Type} (f : B -> A -> B) (l : list A) (init : B) : B :=
  fold_left f l init.

End JS.

(** ** Data model *)

(** The container [div]: only its measured box is read. *)
Record Container : Type := mkContainer {
  c_offsetWidth : Q;
  c_offsetHeight : Q
}.

(** A [div] of the hidden measuring layer. *)
Record MeasureDiv : Type := mkMeasureDiv {
  offsetWidth : Q
}.

(** [type LetterData = { char; top; left }] *)
Record LetterData : Type := mkLetterData {
  char : string;
  top : Q;
  left : Q
}.

(** [direction?: "x" | "y" | "both"] *)
Inductive Direction : Type :=
| DirX
| DirY
| DirBoth.

(** ** The layout pass ([useLayoutEffect], lines 49-77) *)

Module Layout.

(** [text.split("").map((_, i) => letterRefs.current[i]?.offsetWidth ?? 0)] *)
Definition measure_widths (letterRefs : list (option MeasureDiv)) (text : string)
  : list Q :=
  JS.mapi
    (fun _ i => JS.nullish (option_map offsetWidth (JS.array_get letterRefs i)) 0)
    (JS.split_chars text).

(** [text.length - 1], which is [-1] on the empty text. *)
Definition length_minus_one (text : string) : Q :=
  inject_Z (Z.of_nat (String.length text) - 1).

(** [widths.reduce((sum, w) => sum + w, 0) + spacing * (text.length - 1)] *)
Definition totalWidth (widths : list Q) (spacing : Q) (text : string) : Q :=
  JS.reduce (fun sum w => sum + w) widths 0 + spacing * length_minus_one text.

(** [(containerWidth - totalWidth) / 2] *)
Definition startX (containerWidth total : Q) : Q :=
  (containerWidth - total) / 2.

(** [verticalCenter ? containerRef.current.offsetHeight / 2 - 32 : 100] *)
Definition top_of (verticalCenter : bool) (c : Container) : Q :=
  if verticalCenter then c_offsetHeight c / 2 - 32 else 100.

(** The variables the [forEach] body updates. *)
Record LoopState : Type := mkLoopState {
  positions : list LetterData;
  currentLeft : Q
}.

(** One pass of the body:
    [positions.push({char, top, left: currentLeft});]
    [currentLeft += (widths[i] ?? 0) + spacing;] *)
Definition loop_body (widths : list Q) (spacing top : Q)
           (char : string) (i : nat) (st : LoopState) : LoopState :=
  {| positions := positions st ++ [mkLetterData char top (currentLeft st)];
     currentLeft := currentLeft st + (JS.nullish (nth_error widths i) 0 + spacing) |}.

(** The positions handed to [setLetters], once both guards are passed. *)
Definition compute_positions (c : Container) (letterRefs : list (option MeasureDiv))
           (text : string) (spacing : Q) (verticalCenter : bool)
  : list LetterData :=
  let containerWidth := c_offsetWidth c in
  let widths := measure_widths letterRefs text in
  let total := totalWidth widths spacing text in
  let start := startX containerWidth total in
  let top := top_of verticalCenter c in
  positions
    (JS.forEach (loop_body widths spacing top) (JS.split_chars text)
                {| positions := []; currentLeft := start |}).

(** The effect body: [None] is the early [return], [Some ps] is
    [setLetters(ps)]. *)
Definition layout_pass (containerRef : option Container)
           (letterRefs : list (option MeasureDiv))
           (text : string) (spacing : Q) (verticalCenter : bool)
  : option (list LetterData) :=
  match containerRef with
  | None => None
  | Some c =>
      if Nat.eqb (List.length letterRefs) 0 then None
      else Some (compute_positions c letterRefs text spacing verticalCenter)
  end.

End Layout.

(** ** The drag library, as the component sees it *)

(** A call of one of the two callback props: which function was called
    (functions are compared by identity, here a number) and with what. *)
Record Call : Type := mkCall {
  callee : nat;
  arg_char : string;
  arg_index : nat
}.

(** The [vars] object handed to [Draggable.create].  A handler is recorded
    by the calls it makes when it fires. *)
Record DraggableVars : Type := mkVars {
  bounds : Container;
  inertia : bool;
  type : string;
  edgeResistance : Q;
  onPress : list Call;
  onRelease : list Call
}.

(** The drag library lies outside the repository, and the component keeps
    no handle of the bindings it asks for and never disposes of one.  What
    the component decides is therefore the log of its [Draggable.create]
    calls, oldest first; [Drag.Store] is that log.  Which bindings of the
    log are still active is the library's business, and neither the source
    nor the spec settles what a second binding of the same element does to
    the first.  Two readings are given:
    - the spec's "handle that can be torn down": a binding is active until
      its handle is disposed of, so every binding of the log is active
      ([bindings_on] over the log itself);
    - the library replaces: binding an element kills the binding it already
      had ([active_replacing]).
    A visible glyph element is named by its index, the [key] under which the
    framework keeps its DOM node across renders. *)
Module Drag.

Record Binding : Type := mkBinding {
  target : nat;
  vars : DraggableVars
}.

(** Bindings in the order of their creation. *)
Definition Store : Type := list Binding.

(** [Draggable.create(el, vars)] *)
Definition create (el : nat) (v : DraggableVars) (store : Store) : Store :=
  store ++ [mkBinding el v].

Definition bindings_on (el : nat) (store : Store) : list Binding :=
  filter (fun b => Nat.eqb (target b) el) store.

(** The bindings of a log that are still active when the library, on
    binding an element, kills the binding that element already had: of the
    bindings of one element only the last one made. *)
Fixpoint active_replacing (log : Store) : Store :=
  match log with
  | [] => []
  | b :: later =>
      if existsb (fun b' => Nat.eqb (target b') (target b)) later
      then active_replacing later
      else b :: active_replacing later
  end.

(** A press on an element fires the press handler of each of its bindings
    in the store of active bindings; likewise a release. *)
Definition press (el : nat) (store : Store) : list Call :=
  flat_map (fun b => onPress (vars b)) (bindings_on el store).

Definition release (el : nat) (store : Store) : list Call :=
  flat_map (fun b => onRelease (vars b)) (bindings_on el store).

End Drag.

(** ** The component *)

Module Component.

(** [DraggableLettersProps], without the cosmetic class and style
    overrides.  An absent callback is [None]. *)
Record Props : Type := mkProps {
  text : string;
  direction : Direction;
  spacing : Q;
  verticalCenter : bool;
  onDragStart : option nat;
  onDragEnd : option nat
}.

(** [letterRefs] ([useRef]), [letters] ([useState]) and the bindings the
    component has asked the drag library for. *)
Record State : Type := mkState {
  letterRefs : list (option MeasureDiv);
  letters : list LetterData;
  draggables : Drag.Store
}.

(** [useRef([])], [useState([])], nothing bound yet. *)
Definition initial : State :=
  {| letterRefs := []; letters := []; draggables := [] |}.

(** The hidden measuring layer (lines 108-120): one [div] per character,
    whose ref callback stores it with [letterRefs.current[idx] = el].  The
    browser's measurement of the [div] for [char] at [idx] is [measure].
    This is the attaching half of a commit; [refs] is the array as the
    detaching half ([detach_refs] below) left it.  The array keeps the
    length a longer text gave it; the layout pass reads no entry past the
    text, only the array's length. *)
Definition render_measuring_layer (measure : string -> nat -> MeasureDiv)
           (text : string) (refs : list (option MeasureDiv))
  : list (option MeasureDiv) :=
  JS.forEach (fun char idx refs => JS.array_set refs idx (Some (measure char idx)))
             (JS.split_chars text) refs.

(** Before the ref callbacks of a render are called with their elements,
    the framework calls those of the previous render with [null] (they are
    new functions on every render, and the [div] of a character that is gone
    is unmounted): [letterRefs.current[idx] = null] for every index of the
    previous text. *)
Definition detach_refs (prev_text : string) (refs : list (option MeasureDiv))
  : list (option MeasureDiv) :=
  JS.forEach (fun _ idx refs => JS.array_set refs idx None)
             (JS.split_chars prev_text) refs.

(** The ref array after the commit of a render of [text]; [prev_text] is
    the text of the previous render, [None] on mount. *)
Definition commit_refs (measure : string -> nat -> MeasureDiv)
           (prev_text : option string) (text : string)
           (refs : list (option MeasureDiv)) : list (option MeasureDiv) :=
  render_measuring_layer measure text
    match prev_text with
    | Some t => detach_refs t refs
    | None => refs
    end.

(** The layout effect: [setLetters(positions)] unless it returned early. *)
Definition layout_effect (containerRef : option Container) (p : Props) (st : State)
  : State :=
  match Layout.layout_pass containerRef (letterRefs st)
                           (text p) (spacing p) (verticalCenter p) with
  | None => st
  | Some ps =>
      {| letterRefs := letterRefs st; letters := ps; draggables := draggables st |}
  end.

(** The visible layer (lines 123-134) has one [.draggable-letter] element
    per entry of [letters], in order: what [querySelectorAll] returns. *)
Definition query_draggable_letters (letters : list LetterData) : list nat :=
  JS.mapi (fun _ idx => idx) letters.

(** [direction === "both" ? "x,y" : direction] *)
Definition drag_type (d : Direction) : string :=
  match d with
  | DirBoth => "x,y"
  | DirX => "x"
  | DirY => "y"
  end.

(** [() => { const letter = letters[i]; if (letter && cb) cb(letter.char, i); }] *)
Definition handler (letters : list LetterData) (cb : option nat) (i : nat)
  : list Call :=
  match nth_error letters i, cb with
  | Some letter, Some f => [mkCall f (char letter) i]
  | _, _ => []
  end.

Definition draggable_vars (c : Container) (p : Props) (letters : list LetterData)
           (i : nat) : DraggableVars :=
  {| bounds := c;
     inertia := true;
     type := drag_type (direction p);
     edgeResistance := 65 # 100;
     onPress := handler letters (onDragStart p) i;
     onRelease := handler letters (onDragEnd p) i |}.

(** The binding effect (lines 79-99).  It returns no cleanup function. *)
Definition bind_effect (containerRef : option Container) (p : Props) (st : State)
  : State :=
  match containerRef with
  | None => st
  | Some c =>
      {| letterRefs := letterRefs st;
         letters := letters st;
         draggables :=
           JS.forEach
             (fun el i store =>
                Drag.create el (draggable_vars c p (letters st) i) store)
             (query_draggable_letters (letters st))
             (draggables st) |}
  end.

(** *** Commits

    The framework runs an effect after the first render and after every
    render in which one of its dependencies differs from the previous
    render.  The layout effect depends on [[text, spacing, verticalCenter]],
    the binding effect on [[letters, direction, onDragStart, onDragEnd]];
    [letters] only changes through [setLetters], which always passes a
    fresh array and so causes one more render. *)

Definition direction_eqb (a b : Direction) : bool :=
  match a, b with
  | DirX, DirX | DirY, DirY | DirBoth, DirBoth => true
  | _, _ => false
  end.

Definition callback_eqb (a b : option nat) : bool :=
  match a, b with
  | Some f, Some g => Nat.eqb f g
  | None, None => true
  | _, _ => false
  end.

Definition layout_deps_changed (old new : Props) : bool :=
  negb (String.eqb (text old) (text new)
        && Qeq_bool (spacing old) (spacing new)
        && Bool.eqb (verticalCenter old) (verticalCenter new)).

Definition bind_deps_changed (old new : Props) : bool :=
  negb (direction_eqb (direction old) (direction new)
        && callback_eqb (onDragStart old) (onDragStart new)
        && callback_eqb (onDragEnd old) (onDragEnd new)).

(** One render with props [p], its effects, and the render that
    [setLetters] causes.  [prev] is the props of the previous render,
    [None] on mount. *)
Definition commit (containerRef : option Container)
           (measure : string -> nat -> MeasureDiv)
           (prev : option Props) (p : Props) (st : State) : State :=
  let rendered :=
    {| letterRefs := commit_refs measure (option_map text prev) (text p)
                                 (letterRefs st);
       letters := letters st;
       draggables := draggables st |} in
  let run_layout :=
    match prev with None => true | Some q => layout_deps_changed q p end in
  let run_bind :=
    match prev with None => true | Some q => bind_deps_changed q p end in
  let laid_out :=
    if run_layout
    then Layout.layout_pass containerRef (letterRefs rendered)
                            (text p) (spacing p) (verticalCenter p)
    else None in
  let bound := if run_bind then bind_effect containerRef p rendered else rendered in
  match laid_out with
  | None => bound
  | Some ps =>
      bind_effect containerRef p
        {| letterRefs := letterRefs bound; letters := ps;
           draggables := draggables bound |}
  end.

Definition mount (containerRef : option Container)
           (measure : string -> nat -> MeasureDiv) (p : Props) : State :=
  commit containerRef measure None p initial.

Definition update (containerRef : option Container)
           (measure : string -> nat -> MeasureDiv) (old new : Props) (st : State)
  : State :=
  commit containerRef measure (Some old) new st.

(** The states the component can be in: after its mount, and after any
    update of a state it can be in. *)
Inductive Reachable : State -> Prop :=
| reach_mount (containerRef : option Container)
              (measure : string -> nat -> MeasureDiv) (p : Props) :
    Reachable (mount containerRef measure p)
| reach_update (containerRef : option Container)
               (measure : string -> nat -> MeasureDiv) (old new : Props)
               (st : State) :
    Reachable st -> Reachable (update containerRef measure old new st).

End Component.

(** ** The layout pass in double precision

    The same effect body (lines 49-77) with a JavaScript [number] as what it
    is, an IEEE 754 binary64 value: [float], whose operations round to
    nearest.  It is used where rounding decides a result. *)

Module Double.

Import Floats.
Local Open Scope float_scope.

Record Container : Type := mkContainer {
  c_offsetWidth : float;
  c_offsetHeight : float
}.

Record MeasureDiv : Type := mkMeasureDiv {
  offsetWidth : float
}.

Record LetterData : Type := mkLetterData {
  char : string;
  top : float;
  left : float
}.

(** The ref callbacks of the measuring layer (lines 108-120), called with
    their elements on an array [refs] that earlier renders left in any
    state. *)
Definition render_measuring_layer (measure : string -> nat -> MeasureDiv)
           (text : string) (refs : list (option MeasureDiv))
  : list (option MeasureDiv) :=
  JS.forEach (fun char idx refs => JS.array_set refs idx (Some (measure char idx)))
             (JS.split_chars text) refs.

(** [text.split("").map((_, i) => letterRefs.current[i]?.offsetWidth ?? 0)] *)
Definition measure_widths (letterRefs : list (option MeasureDiv)) (text : string)
  : list float :=
  JS.mapi
    (fun _ i => JS.nullish (option_map offsetWidth (JS.array_get letterRefs i)) 0)
    (JS.split_chars text).

(** A length as a number: lengths are far below 2^53, where counting by
    ones is exact. *)
Fixpoint of_length (n : nat) : float :=
  match n with
  | O => 0
  | S m => of_length m + 1
  end.

(** [text.length - 1] *)
Definition length_minus_one (text : string) : float :=
  of_length (String.length text) - 1.

(** [widths.reduce((sum, w) => sum + w, 0) + spacing * (text.length - 1)] *)
Definition totalWidth (widths : list float) (spacing : float) (text : string) : float :=
  JS.reduce (fun sum w => sum + w) widths 0 + spacing * length_minus_one text.

(** [(containerWidth - totalWidth) / 2] *)
Definition startX (containerWidth total : float) : float :=
  (containerWidth - total) / 2.

(** [verticalCenter ? containerRef.current.offsetHeight / 2 - 32 : 100] *)
Definition top_of (verticalCenter : bool) (c : Container) : float :=
  if verticalCenter then c_offsetHeight c / 2 - 32 else 100.

Record LoopState : Type := mkLoopState {
  positions : list LetterData;
  currentLeft : float
}.

(** [positions.push({char, top, left: currentLeft});]
    [currentLeft += (widths[i] ?? 0) + spacing;] *)
Definition loop_body (widths : list float) (spacing top : float)
           (char : string) (i : nat) (st : LoopState) : LoopState :=
  {| positions := positions st ++ [mkLetterData char top (currentLeft st)];
     currentLeft := currentLeft st + (JS.nullish (nth_error widths i) 0 + spacing) |}.

Definition compute_positions (c : Container) (letterRefs : list (option MeasureDiv))
           (text : string) (spacing : float) (verticalCenter : bool)
  : list LetterData :=
  let containerWidth := c_offsetWidth c in
  let widths := measure_widths letterRefs text in
  let total := totalWidth widths spacing text in
  let start := startX containerWidth total in
  let top := top_of verticalCenter c in
  positions
    (JS.forEach (loop_body widths spacing top) (JS.split_chars text)
                {| positions := []; currentLeft := start |}).

(** [None] is the early [return], [Some ps] is [setLetters(ps)]. *)
Definition layout_pass (containerRef : option Container)
           (letterRefs : list (option MeasureDiv))
           (text : string) (spacing : float) (verticalCenter : bool)
  : option (list LetterData) :=
  match containerRef with
  | None => None
  | Some c =>
      if Nat.eqb (List.length letterRefs) 0 then None
      else Some (compute_positions c letterRefs text spacing verticalCenter)
  end.

(** The rational number a finite double stands for; none for the
    infinities and [NaN]. *)
Definition value (x : float) : option Q :=
  match Prim2SF x with
  | S754_zero _ => Some 0%Q
  | S754_finite negative m e =>
      Some ((if negative then - inject_Z (Zpos m) else inject_Z (Zpos m))
            * Qpower 2 e)%Q
  | S754_infinity _ => None
  | S754_nan => None
  end.





(** The records the loop pushes from index [k] on, starting at [cur]. *)
Fixpoint pushed_from (widths : list float) (spacing glyph_top : float)
         (k : nat) (cur : float) (chars : list string) : list LetterData :=
  match chars with
  | [] => []
  | ch :: rest =>
      mkLetterData ch glyph_top cur
        :: pushed_from widths spacing glyph_top (S k)
             (cur + (JS.nullish (nth_error widths k) 0 + spacing)) rest
  end.

End Double.

(** ** StaggeredParagraph: the line-splitting effect

    Shallow embedding of the [useGSAP] callback of [StaggeredParagraph]
    ([apps/docs/constants/TextComponent/staggeredParagraphRaw.ts], lines
    37-113).  DOM nodes are named by a number; the inline styles the effect
    writes are kept in a store indexed by node, and the calls made to the
    animation library are logged in order.  The text splitter is outside the
    repository: what it returns for an element is the parameter
    [split_lines], and an instance stays active from its construction until
    its [revert] is called. *)

Module Stagger.

(** A member of [split.lines]: which node it is and whether it passes
    [instanceof HTMLElement]. *)
Record Line : Type := mkLine {
  line_node : nat;
  line_isHTMLElement : bool
}.

(** What the effect reads of [containerRef.current]. *)
Record ContainerEl : Type := mkContainerEl {
  self : nat;
  hasCopyWrapper : bool;
  children : list nat
}.

(** A [SplitText] instance: the element it split and its [lines]. *)
Record Split : Type := mkSplit {
  split_id : nat;
  split_element : nat;
  split_lines_of : list Line
}.

(** [scrollTrigger: { trigger, start, once }] *)
Record ScrollTriggerVars : Type := mkScrollTrigger {
  trigger : nat;
  start : string;
  once : bool
}.

(** [animationProps], with the optional [scrollTrigger]. *)
Record TweenVars : Type := mkTweenVars {
  tween_y : string;
  duration : Q;
  stagger : Q;
  ease : string;
  tween_delay : Q;
  scrollTrigger : option ScrollTriggerVars
}.

Inductive GsapCall : Type :=
| GsapSet (targets : list Line) (y : string)
| GsapTo (targets : list Line) (vars : TweenVars).

(** An inline style property of every node; [None] when it was never
    written. *)
Definition StyleStore : Type := nat -> option string.

Definition set_style (store : StyleStore) (node : nat) (value : string)
  : StyleStore :=
  fun n => if Nat.eqb n node then Some value else store n.

(** The three refs of the component, the inline styles it writes, and the
    two libraries' side: the active [SplitText] instances, how many were
    ever constructed, and the log of [gsap] calls. *)
Record State : Type := mkState {
  splitRef : list Split;
  elementRef : list nat;
  lines : list Line;
  textIndentStyle : StyleStore;
  paddingLeftStyle : StyleStore;
  active : list Split;
  constructed : nat;
  gsapLog : list GsapCall
}.

Definition initial : State :=
  {| splitRef := []; elementRef := []; lines := [];
     textIndentStyle := fun _ => None; paddingLeftStyle := fun _ => None;
     active := []; constructed := 0; gsapLog := [] |}.

(** [textIndent && textIndent !== "0px"] *)
Definition indent_is_set (textIndent : string) : bool :=
  negb (String.eqb textIndent "") && negb (String.eqb textIndent "0px").

(** [split.lines.filter((el) => el instanceof HTMLElement)] *)
Definition html_lines (ls : list Line) : list Line :=
  filter line_isHTMLElement ls.

(** The body of [elements.forEach] (lines 53-80).  [computedTextIndent] is
    [window.getComputedStyle(element).textIndent]. *)
Definition process_element (split_lines : nat -> list Line)
           (computedTextIndent : nat -> string)
           (element : nat) (st : State) : State :=
  let split := mkSplit (constructed st) element (split_lines element) in
  let textIndent := computedTextIndent element in
  let padding :=
    if indent_is_set textIndent then
      match nth_error (split_lines_of split) 0 with
      | Some firstLine =>
          if line_isHTMLElement firstLine
          then set_style (paddingLeftStyle st) (line_node firstLine) textIndent
          else paddingLeftStyle st
      | None => paddingLeftStyle st
      end
    else paddingLeftStyle st in
  let indent :=
    if indent_is_set textIndent
    then set_style (textIndentStyle st) element "0"
    else textIndentStyle st in
  {| splitRef := splitRef st ++ [split];
     elementRef := elementRef st ++ [element];
     lines := lines st ++ html_lines (split_lines_of split);
     textIndentStyle := indent;
     paddingLeftStyle := padding;
     active := active st ++ [split];
     constructed := S (constructed st);
     gsapLog := gsapLog st |}.

(** [hasAttribute("data-copy-wrapper") ? Array.from(children) : [container]] *)
Definition elements_of (c : ContainerEl) : list nat :=
  if hasCopyWrapper c then children c else [self c].

(** [{ y: "0%", duration: 1, stagger: 0.1, ease: "power4.out", delay }] *)
Definition animationProps (delay : Q) : TweenVars :=
  {| tween_y := "0%"; duration := 1; stagger := 1 # 10; ease := "power4.out";
     tween_delay := delay; scrollTrigger := None |}.

(** The tween of lines 92-103. *)
Definition tween_vars (c : ContainerEl) (animateOnScroll : bool) (delay : Q)
  : TweenVars :=
  if animateOnScroll then
    {| tween_y := tween_y (animationProps delay);
       duration := duration (animationProps delay);
       stagger := stagger (animationProps delay);
       ease := ease (animationProps delay);
       tween_delay := tween_delay (animationProps delay);
       scrollTrigger := Some (mkScrollTrigger (self c) "top 75%" true) |}
  else animationProps delay.

(** The effect callback (lines 38-104).  With no container it returns at
    once, before the refs are reset. *)
Definition run (split_lines : nat -> list Line) (computedTextIndent : nat -> string)
           (containerRef : option ContainerEl) (animateOnScroll : bool) (delay : Q)
           (st : State) : State :=
  match containerRef with
  | None => st
  | Some c =>
      let reset :=
        {| splitRef := []; elementRef := []; lines := [];
           textIndentStyle := textIndentStyle st;
           paddingLeftStyle := paddingLeftStyle st;
           active := active st; constructed := constructed st;
           gsapLog := gsapLog st |} in
      let split :=
        JS.forEach (fun element _ st => process_element split_lines computedTextIndent element st)
                   (elements_of c) reset in
      {| splitRef := splitRef split; elementRef := elementRef split;
         lines := lines split;
         textIndentStyle := textIndentStyle split;
         paddingLeftStyle := paddingLeftStyle split;
         active := active split; constructed := constructed split;
         gsapLog :=
           gsapLog split
             ++ [GsapSet (lines split) "100%";
                 GsapTo (lines split) (tween_vars c animateOnScroll delay)] |}
  end.

(** [split.revert()]: the instance is no longer active. *)
Definition revert (split : Split) (act : list Split) : list Split :=
  filter (fun s => negb (Nat.eqb (split_id s) (split_id split))) act.

(** The cleanup the effect returns (lines 105-107):
    [splitRef.current.forEach((split) => split?.revert?.())].  It reads
    [splitRef] when it is called. *)
Definition cleanup (st : State) : State :=
  {| splitRef := splitRef st; elementRef := elementRef st; lines := lines st;
     textIndentStyle := textIndentStyle st;
     paddingLeftStyle := paddingLeftStyle st;
     active := JS.forEach (fun split _ act => revert split act) (splitRef st) (active st);
     constructed := constructed st;
     gsapLog := gsapLog st |}.

(** The effect run once for each entry of [deps] (a value of
    [animateOnScroll] and of [delay]), with no cleanup called in between. *)
Definition runs (split_lines : nat -> list Line) (computedTextIndent : nat -> string)
           (c : ContainerEl) (deps : list (bool * Q)) (st : State) : State :=
  fold_left (fun st d => run split_lines computedTextIndent (Some c) (fst d) (snd d) st)
            deps st.

(** Every active instance was constructed before now. *)
Definition fresh (st : State) : Prop :=
  Forall (fun s => (split_id s < constructed st)%nat) (active st).

(** The element writes its indent as padding on the node [n]: its indent is
    set and [n] is its first line, an HTML element (lines 67-71). *)
Definition pads (split_lines : nat -> list Line) (computedTextIndent : nat -> string)
           (n : nat) (element : nat) : bool :=
  indent_is_set (computedTextIndent element)
  && match split_lines element with
     | firstLine :: _ =>
         line_isHTMLElement firstLine && Nat.eqb n (line_node firstLine)
     | [] => false
     end.

(** The instances a run constructs for [elements], the first of them
    numbered [k]. *)
Fixpoint new_splits (split_lines : nat -> list Line) (k : nat) (elements : list nat)
  : list Split :=
  match elements with
  | [] => []
  | e :: rest => mkSplit k e (split_lines e) :: new_splits split_lines (S k) rest
  end.

End Stagger.

(** ** Closed forms used to state the results *)

(** The sum of the glyph widths, written as a sum. *)
Fixpoint Qsum (ws : list Q) : Q :=
  match ws with
  | [] => 0
  | w :: rest => w + Qsum rest
  end.

(** The records the layout loop pushes from index [k] on, starting at
    [cur]. *)
Fixpoint pushed_from (widths : list Q) (spacing glyph_top : Q)
         (k : nat) (cur : Q) (chars : list string) : list LetterData :=
  match chars with
  | [] => []
  | ch :: rest =>
      mkLetterData ch glyph_top cur
        :: pushed_from widths spacing glyph_top (S k)
             (cur + (JS.nullish (nth_error widths k) 0 + spacing)) rest
  end.

(** The bindings one run of the binding effect creates over [n] visible
    glyph elements, the first of them at index [k]. *)
Definition created_from (vars_of : nat -> DraggableVars) (k n : nat) : Drag.Store :=
  map (fun i => Drag.mkBinding i (vars_of i)) (seq k n).

(** * Facts about the JavaScript operations *)

Section JSFacts.

Context {A : Type}.

Lemma entries_from_cons (k : nat) (x : A) (l : list A) :
  JS.entries_from k (x :: l) = (x, k) :: JS.entries_from (S k) l.
Proof. reflexivity. Qed.


Lemma entries_from_nth (l : list A) :
  forall k i,
    nth_error (JS.entries_from k l) i
    = option_map (fun x => (x, (k + i)%nat)) (nth_error l i).
Proof.
  induction l as [| x l IH]; intros k i.
  - destruct i; reflexivity.
  - rewrite entries_from_cons. destruct i as [| i]; simpl.
    + now rewrite Nat.add_0_r.
    + rewrite IH. now rewrite Nat.add_succ_r.
Qed.


Lemma mapi_nth {B : Type} (f : A -> nat -> B) (l : list A) (i : nat) :
  nth_error (JS.mapi f l) i = option_map (fun x => f x i) (nth_error l i).
Proof.
  unfold JS.mapi, JS.entries.
  rewrite nth_error_map, entries_from_nth.
  destruct (nth_error l i); reflexivity.
Qed.

Lemma array_set_length (a : list (option A)) :
  forall i v, List.length (JS.array_set a i v) = Nat.max (List.length a) (S i).
Proof.
  induction a as [| h t IH]; intros i v.
  - induction i as [| i IHi]; simpl; [reflexivity |].
    simpl in IHi. now rewrite IHi.
  - destruct i as [| i]; simpl; [now rewrite Nat.max_0_r |]. now rewrite IH.
Qed.

Lemma array_get_set_same (a : list (option A)) :
  forall i v, JS.array_get (JS.array_set a i v) i = v.
Proof.
  unfold JS.array_get.
  induction a as [| h t IH]; intros i v.
  - induction i as [| i IHi]; simpl; [reflexivity | exact IHi].
  - destruct i as [| i]; simpl; [reflexivity | apply IH].
Qed.

Lemma array_get_set_other (a : list (option A)) :
  forall i j v, i <> j -> JS.array_get (JS.array_set a i v) j = JS.array_get a j.
Proof.
  unfold JS.array_get.
  induction a as [| h t IH]; intros i j v Hij.
  - revert j Hij. induction i as [| i IHi]; intros j Hij.
    + destruct j as [| j]; [congruence |]. simpl. now destruct j.
    + destruct j as [| j]; simpl; [reflexivity |].
      rewrite IHi by congruence. now destruct j.
  - destruct i as [| i], j as [| j]; simpl; try reflexivity; try congruence.
    apply IH. congruence.
Qed.

End JSFacts.

Lemma split_chars_length (s : string) :
  List.length (JS.split_chars s) = String.length s.
Proof. induction s as [| a s IH]; simpl; congruence. Qed.

Lemma split_chars_nil (s : string) : JS.split_chars s = [] -> s = EmptyString.
Proof. destruct s; [reflexivity | discriminate]. Qed.

Lemma nullish_nth (ws : list Q) (i : nat) :
  JS.nullish (nth_error ws i) 0 = nth i ws 0.
Proof.
  revert i. induction ws as [| w ws IH]; intros [| i]; simpl; auto.
Qed.

(** * The layout loop *)

Section LayoutLoop.

Variables (widths : list Q) (spacing glyph_top : Q).

Local Abbreviation pushed_from := (pushed_from widths spacing glyph_top).

Lemma loop_positions (chars : list string) :
  forall k st,
    Layout.positions
      (fold_left (fun st xi => Layout.loop_body widths spacing glyph_top (fst xi) (snd xi) st)
                 (JS.entries_from k chars) st)
    = Layout.positions st ++ pushed_from k (Layout.currentLeft st) chars.
Proof.
  induction chars as [| ch rest IH]; intros k st.
  - simpl. now rewrite app_nil_r.
  - rewrite entries_from_cons. simpl fold_left. rewrite IH.
    simpl. now rewrite <- app_assoc.
Qed.

Lemma pushed_from_length (chars : list string) :
  forall k cur, List.length (pushed_from k cur chars) = List.length chars.
Proof. induction chars as [| ch rest IH]; intros; simpl; auto. Qed.

Lemma pushed_from_chars (chars : list string) :
  forall k cur, map char (pushed_from k cur chars) = chars.
Proof. induction chars as [| ch rest IH]; intros; simpl; [| rewrite IH]; auto. Qed.

Lemma pushed_from_tops (chars : list string) :
  forall k cur, Forall (fun p => top p = glyph_top) (pushed_from k cur chars).
Proof.
  induction chars as [| ch rest IH]; intros; simpl; constructor; auto.
Qed.

Lemma pushed_from_top_list (chars : list string) :
  forall k cur,
    map top (pushed_from k cur chars) = repeat glyph_top (List.length chars).
Proof. induction chars as [| ch rest IH]; intros; simpl; [| rewrite IH]; auto. Qed.

Lemma pushed_from_adjacent (chars : list string) :
  forall k cur i p q,
    nth_error (pushed_from k cur chars) i = Some p ->
    nth_error (pushed_from k cur chars) (S i) = Some q ->
    left q = left p + (nth (k + i) widths 0 + spacing).
Proof.
  induction chars as [| ch rest IH]; intros k cur i p q Hp Hq.
  - destruct i; discriminate.
  - destruct i as [| i].
    + simpl in Hp. injection Hp as <-.
      destruct rest as [| ch' rest']; [discriminate |].
      simpl in Hq. injection Hq as <-. simpl.
      now rewrite nullish_nth, Nat.add_0_r.
    + simpl in Hp, Hq. rewrite Nat.add_succ_r.
      apply (IH (S k) _ i p q Hp Hq).
Qed.

End LayoutLoop.

Lemma compute_positions_eq (c : Container) (refs : list (option MeasureDiv))
      (text : string) (spacing : Q) (vc : bool) :
  Layout.compute_positions c refs text spacing vc
  = pushed_from (Layout.measure_widths refs text) spacing (Layout.top_of vc c) 0
      (Layout.startX (c_offsetWidth c)
         (Layout.totalWidth (Layout.measure_widths refs text) spacing text))
      (JS.split_chars text).
Proof.
  unfold Layout.compute_positions, JS.forEach, JS.entries.
  now rewrite loop_positions.
Qed.

Lemma layout_pass_runs (c : Container) (refs : list (option MeasureDiv))
      (text : string) (spacing : Q) (vc : bool) :
  refs <> [] ->
  Layout.layout_pass (Some c) refs text spacing vc
  = Some (Layout.compute_positions c refs text spacing vc).
Proof.
  intros H. unfold Layout.layout_pass.
  destruct refs; [congruence | reflexivity].
Qed.

Lemma reduce_sum (ws : list Q) :
  forall acc, JS.reduce (fun sum w => sum + w) ws acc == acc + Qsum ws.
Proof.
  unfold JS.reduce.
  induction ws as [| w ws IH]; intros acc; simpl.
  - ring.
  - rewrite IH. ring.
Qed.

(** * The measuring layer *)

Section MeasuringLayer.

Variable measure : string -> nat -> MeasureDiv.

Let attach (refs : list (option MeasureDiv)) (xi : string * nat) :=
  JS.array_set refs (snd xi) (Some (measure (fst xi) (snd xi))).

Lemma attach_all_length (chars : list string) :
  forall k refs,
    (List.length refs <= List.length (fold_left attach (JS.entries_from k chars) refs))%nat.
Proof.
  induction chars as [| ch rest IH]; intros k refs.
  - apply Nat.le_refl.
  - rewrite entries_from_cons. simpl fold_left.
    eapply Nat.le_trans; [| apply IH].
    unfold attach. rewrite array_set_length. apply Nat.le_max_l.
Qed.

Lemma attach_all_below (chars : list string) :
  forall k refs j,
    (j < k)%nat ->
    JS.array_get (fold_left attach (JS.entries_from k chars) refs) j
    = JS.array_get refs j.
Proof.
  induction chars as [| ch rest IH]; intros k refs j Hj.
  - reflexivity.
  - rewrite entries_from_cons. simpl fold_left.
    rewrite IH by lia. unfold attach. simpl.
    apply array_get_set_other. lia.
Qed.

Lemma attach_all_get (chars : list string) :
  forall k refs i ch,
    nth_error chars i = Some ch ->
    JS.array_get (fold_left attach (JS.entries_from k chars) refs) (k + i)
    = Some (measure ch (k + i)%nat).
Proof.
  induction chars as [| c0 rest IH]; intros k refs i ch Hi.
  - destruct i; discriminate.
  - rewrite entries_from_cons. simpl fold_left.
    destruct i as [| i].
    + injection Hi as <-. rewrite Nat.add_0_r.
      rewrite attach_all_below by lia.
      unfold attach. simpl. apply array_get_set_same.
    + simpl in Hi. rewrite Nat.add_succ_r.
      apply (IH (S k) _ i ch Hi).
Qed.

(** After the render of a non-empty text the ref array is not empty, so
    the layout effect does not take its early return. *)
Lemma render_nonempty (text : string) (refs : list (option MeasureDiv)) :
  text <> EmptyString ->
  Component.render_measuring_layer measure text refs <> [].
Proof.
  intros Ht Hnil.
  destruct text as [| a rest]; [congruence |].
  unfold Component.render_measuring_layer, JS.forEach, JS.entries in Hnil.
  simpl JS.split_chars in Hnil. rewrite entries_from_cons in Hnil.
  cbn [fold_left] in Hnil.
  apply (f_equal (@List.length _)) in Hnil.
  match type of Hnil with
  | List.length (fold_left _ _ ?r) = _ =>
      pose proof (attach_all_length (JS.split_chars rest) 1 r) as Hlen;
      pose proof (array_set_length refs 0
                    (Some (measure (String a EmptyString) 0))) as Hset
  end.
  unfold attach in Hlen. cbn [fst snd List.length] in *. lia.
Qed.

(** Every glyph of the rendered text is measured: its width is the
    [offsetWidth] of its own measuring [div]. *)
Lemma render_widths (text : string) (refs : list (option MeasureDiv)) :
  Layout.measure_widths (Component.render_measuring_layer measure text refs) text
  = JS.mapi (fun ch i => offsetWidth (measure ch i)) (JS.split_chars text).
Proof.
  apply nth_error_ext. intro i.
  unfold Layout.measure_widths. rewrite !mapi_nth.
  destruct (nth_error (JS.split_chars text) i) as [ch |] eqn:Hi; [| reflexivity].
  simpl. f_equal.
  unfold Component.render_measuring_layer, JS.forEach, JS.entries.
  pose proof (attach_all_get (JS.split_chars text) 0 refs i ch Hi) as Hget.
  simpl in Hget. unfold attach in Hget. rewrite Hget. reflexivity.
Qed.

End MeasuringLayer.

(** * Properties of the layout pass *)

Lemma length_minus_one_eq (text : string) :
  Layout.length_minus_one text == inject_Z (Z.of_nat (String.length text)) - 1.
Proof.
  unfold Layout.length_minus_one, Z.sub.
  rewrite inject_Z_plus, inject_Z_opp. reflexivity.
Qed.

Lemma totalWidth_eq (ws : list Q) (spacing : Q) (text : string) :
  Layout.totalWidth ws spacing text
  == Qsum ws + spacing * (inject_Z (Z.of_nat (String.length text)) - 1).
Proof.
  unfold Layout.totalWidth.
  rewrite reduce_sum, length_minus_one_eq. ring.
Qed.

Lemma compute_positions_length (c : Container) (refs : list (option MeasureDiv))
      (text : string) (spacing : Q) (vc : bool) :
  List.length (Layout.compute_positions c refs text spacing vc) = String.length text.
Proof.
  rewrite compute_positions_eq, pushed_from_length. apply split_chars_length.
Qed.

Lemma compute_positions_chars (c : Container) (refs : list (option MeasureDiv))
      (text : string) (spacing : Q) (vc : bool) :
  map char (Layout.compute_positions c refs text spacing vc) = JS.split_chars text.
Proof. rewrite compute_positions_eq. apply pushed_from_chars. Qed.

Lemma compute_positions_tops (c : Container) (refs : list (option MeasureDiv))
      (text : string) (spacing : Q) (vc : bool) :
  Forall (fun p => top p = Layout.top_of vc c)
         (Layout.compute_positions c refs text spacing vc).
Proof. rewrite compute_positions_eq. apply pushed_from_tops. Qed.

Lemma compute_positions_top_list (c : Container) (refs : list (option MeasureDiv))
      (text : string) (spacing : Q) (vc : bool) :
  map top (Layout.compute_positions c refs text spacing vc)
  = repeat (Layout.top_of vc c) (String.length text).
Proof.
  rewrite compute_positions_eq, pushed_from_top_list. now rewrite split_chars_length.
Qed.

Lemma compute_positions_first (c : Container) (refs : list (option MeasureDiv))
      (text : string) (spacing : Q) (vc : bool) :
  text <> EmptyString ->
  exists p ps,
    Layout.compute_positions c refs text spacing vc = p :: ps
    /\ left p = Layout.startX (c_offsetWidth c)
                  (Layout.totalWidth (Layout.measure_widths refs text) spacing text).
Proof.
  intros Ht. rewrite compute_positions_eq.
  destruct text as [| a rest]; [congruence |].
  simpl. eexists. eexists. split; reflexivity.
Qed.

Lemma compute_positions_adjacent (c : Container) (refs : list (option MeasureDiv))
      (text : string) (spacing : Q) (vc : bool) (i : nat) (p q : LetterData) :
  nth_error (Layout.compute_positions c refs text spacing vc) i = Some p ->
  nth_error (Layout.compute_positions c refs text spacing vc) (S i) = Some q ->
  left q = left p + (nth i (Layout.measure_widths refs text) 0 + spacing).
Proof.
  rewrite compute_positions_eq. intros Hp Hq.
  apply (pushed_from_adjacent _ _ _ _ 0%nat _ i p q Hp Hq).
Qed.

Lemma nth_nonneg (ws : list Q) (i : nat) :
  Forall (fun w => 0 <= w) ws -> 0 <= nth i ws 0.
Proof.
  intros H. revert i.
  induction H as [| w ws Hw _ IH]; intros [| i]; simpl; auto; apply Qle_refl.
Qed.

(** C1: for every non-empty text and any measured widths, the first glyph
    is placed at [(containerWidth - totalRunWidth) / 2], where the total run
    width is the sum of the glyph widths plus [spacing * (count - 1)]. *)
Theorem first_glyph_is_centered
        (c : Container) (measure : string -> nat -> MeasureDiv)
        (refs0 : list (option MeasureDiv)) (text : string) (spacing : Q) (vc : bool) :
  text <> EmptyString ->
  let refs := Component.render_measuring_layer measure text refs0 in
  let widths := Layout.measure_widths refs text in
  let count := inject_Z (Z.of_nat (String.length text)) in
  let totalRunWidth := Qsum widths + spacing * (count - 1) in
  exists p ps,
    Layout.layout_pass (Some c) refs text spacing vc = Some (p :: ps)
    /\ left p == (c_offsetWidth c - totalRunWidth) / 2.
Proof.
  intros Ht refs widths count totalRunWidth.
  destruct (compute_positions_first c refs text spacing vc Ht) as (p & ps & Hps & Hleft).
  exists p, ps. split.
  - rewrite layout_pass_runs by (apply render_nonempty; exact Ht).
    now rewrite Hps.
  - rewrite Hleft. unfold Layout.startX.
    rewrite totalWidth_eq. reflexivity.
Qed.

Lemma first_glyph_is_centered_witness :
  "AB"%string <> EmptyString
  /\ exists p ps,
      Layout.layout_pass
        (Some (mkContainer 100 50))
        (Component.render_measuring_layer
           (fun _ i => mkMeasureDiv (nth i [10; 20] 0)) "AB" [])
        "AB" 5 true = Some (p :: ps)
      /\ left p == 65 # 2.
Proof.
  split; [discriminate |].
  destruct (first_glyph_is_centered
              (mkContainer 100 50) (fun _ i => mkMeasureDiv (nth i [10; 20] 0))
              [] "AB" 5 true) as (p & ps & Hrun & Hleft); [discriminate |].
  exists p, ps. split; [exact Hrun |].
  rewrite Hleft. reflexivity.
Defined.

(** The worked example of the specification: "AB" with widths 10 and 20,
    spacing 5, in a container 100 wide, is laid out at 32.5 and 47.5. *)
Example layout_of_AB :
  option_map (map (fun p => (char p, Qred (left p))))
    (Layout.layout_pass
       (Some (mkContainer 100 50))
       (Component.render_measuring_layer
          (fun _ i => mkMeasureDiv (nth i [10; 20] 0)) "AB" [])
       "AB" 5 true)
  = Some [("A"%string, 65 # 2); ("B"%string, 95 # 2)].
Proof. reflexivity. Qed.

(** C8: when the run is wider than the container the start offset
    [(containerWidth - totalWidth) / 2] is negative, and the first glyph is
    placed at exactly that value: nothing clamps it. *)
Theorem overflowing_run_starts_negative
        (c : Container) (measure : string -> nat -> MeasureDiv)
        (refs0 : list (option MeasureDiv)) (text : string) (spacing : Q) (vc : bool) :
  text <> EmptyString ->
  let refs := Component.render_measuring_layer measure text refs0 in
  let total := Layout.totalWidth (Layout.measure_widths refs text) spacing text in
  c_offsetWidth c < total ->
  exists p ps,
    Layout.layout_pass (Some c) refs text spacing vc = Some (p :: ps)
    /\ left p = Layout.startX (c_offsetWidth c) total
    /\ left p == (c_offsetWidth c - total) / 2
    /\ left p < 0.
Proof.
  intros Ht refs total Hover.
  destruct (compute_positions_first c refs text spacing vc Ht) as (p & ps & Hps & Hleft).
  fold total in Hleft.
  exists p, ps. split.
  - rewrite layout_pass_runs by (apply render_nonempty; exact Ht).
    now rewrite Hps.
  - split; [exact Hleft |]. rewrite Hleft. unfold Layout.startX.
    split; [reflexivity |].
    apply Qlt_shift_div_r; [reflexivity | lra].
Qed.

Lemma overflowing_run_starts_negative_witness :
  "AB"%string <> EmptyString
  /\ exists p ps,
      Layout.layout_pass
        (Some (mkContainer 20 50))
        (Component.render_measuring_layer
           (fun _ i => mkMeasureDiv (nth i [10; 20] 0)) "AB" [])
        "AB" 5 true = Some (p :: ps)
      /\ left p == - (15 # 2).
Proof.
  split; [discriminate |].
  destruct (overflowing_run_starts_negative
              (mkContainer 20 50) (fun _ i => mkMeasureDiv (nth i [10; 20] 0))
              [] "AB" 5 true) as (p & ps & Hrun & _ & Hleft & _);
    [discriminate | vm_compute; reflexivity |].
  exists p, ps. split; [exact Hrun |].
  rewrite Hleft. vm_compute. reflexivity.
Defined.

(** C9: for every non-empty text the layout pass computes as many glyph
    positions as the text has characters. *)
Theorem one_position_per_character
        (c : Container) (measure : string -> nat -> MeasureDiv)
        (refs0 : list (option MeasureDiv)) (text : string) (spacing : Q) (vc : bool) :
  text <> EmptyString ->
  exists ps,
    Layout.layout_pass (Some c) (Component.render_measuring_layer measure text refs0)
                       text spacing vc = Some ps
    /\ List.length ps = String.length text.
Proof.
  intros Ht. eexists. split.
  - apply layout_pass_runs, render_nonempty, Ht.
  - apply compute_positions_length.
Qed.

Lemma one_position_per_character_witness :
  "AB"%string <> EmptyString
  /\ exists ps,
      Layout.layout_pass
        (Some (mkContainer 100 50))
        (Component.render_measuring_layer
           (fun _ i => mkMeasureDiv (nth i [10; 20] 0)) "AB" [])
        "AB" 5 true = Some ps
      /\ List.length ps = 2%nat.
Proof.
  split; [discriminate |].
  apply (one_position_per_character
           (mkContainer 100 50) (fun _ i => mkMeasureDiv (nth i [10; 20] 0))
           [] "AB" 5 true).
  discriminate.
Defined.

(** C5: the layout pass is a function of the text, the spacing, the
    vertical-centering flag, the container and the measured widths, and
    running the layout effect a second time on its own result changes
    nothing. *)
Theorem layout_is_deterministic_and_idempotent
        (containerRef : option Container) (p : Component.Props)
        (st1 st2 : Component.State) :
  Layout.measure_widths (Component.letterRefs st1) (Component.text p)
  = Layout.measure_widths (Component.letterRefs st2) (Component.text p) ->
  (Component.letterRefs st1 = [] <-> Component.letterRefs st2 = []) ->
  Layout.layout_pass containerRef (Component.letterRefs st1) (Component.text p)
                     (Component.spacing p) (Component.verticalCenter p)
  = Layout.layout_pass containerRef (Component.letterRefs st2) (Component.text p)
                       (Component.spacing p) (Component.verticalCenter p)
  /\ Component.layout_effect containerRef p (Component.layout_effect containerRef p st1)
     = Component.layout_effect containerRef p st1.
Proof.
  intros Hw Hguard. split.
  - destruct containerRef as [c |]; [| reflexivity].
    destruct (Component.letterRefs st1) as [| r1 refs1] eqn:H1.
    + destruct Hguard as [Hguard _]. rewrite (Hguard eq_refl). reflexivity.
    + destruct (Component.letterRefs st2) as [| r2 refs2] eqn:H2.
      * destruct Hguard as [_ Hguard]. discriminate (Hguard eq_refl).
      * rewrite !layout_pass_runs by discriminate.
        rewrite !compute_positions_eq, Hw. reflexivity.
  - unfold Component.layout_effect.
    destruct (Layout.layout_pass containerRef (Component.letterRefs st1)
                (Component.text p) (Component.spacing p)
                (Component.verticalCenter p)) as [ps |] eqn:Hrun.
    + simpl. rewrite Hrun. reflexivity.
    + rewrite Hrun. reflexivity.
Qed.

Lemma layout_is_deterministic_and_idempotent_witness :
  let p := Component.mkProps "AB" DirBoth 5 true None None in
  let st1 :=
    Component.mkState [Some (mkMeasureDiv 10); Some (mkMeasureDiv 20)] [] [] in
  let st2 :=
    Component.mkState [Some (mkMeasureDiv 10); Some (mkMeasureDiv 20); None]
                      [mkLetterData "Z" 0 0] [] in
  Layout.layout_pass (Some (mkContainer 100 50)) (Component.letterRefs st1) "AB" 5 true
  = Layout.layout_pass (Some (mkContainer 100 50)) (Component.letterRefs st2) "AB" 5 true
  /\ Component.layout_effect (Some (mkContainer 100 50)) p
       (Component.layout_effect (Some (mkContainer 100 50)) p st1)
     = Component.layout_effect (Some (mkContainer 100 50)) p st1.
Proof.
  apply (layout_is_deterministic_and_idempotent
           (Some (mkContainer 100 50))
           (Component.mkProps "AB" DirBoth 5 true None None)
           (Component.mkState [Some (mkMeasureDiv 10); Some (mkMeasureDiv 20)] [] [])
           (Component.mkState [Some (mkMeasureDiv 10); Some (mkMeasureDiv 20); None]
                              [mkLetterData "Z" 0 0] [])).
  - reflexivity.
  - simpl. split; discriminate.
Defined.

(** C6: two layouts of the same text that differ only in [spacing] carry
    the same characters at the same indices, in input order (and the same
    vertical position). *)
Theorem spacing_keeps_characters
        (containerRef : option Container) (refs : list (option MeasureDiv))
        (text : string) (spacing1 spacing2 : Q) (vc : bool) :
  option_map (map char) (Layout.layout_pass containerRef refs text spacing1 vc)
  = option_map (map char) (Layout.layout_pass containerRef refs text spacing2 vc)
  /\ option_map (map top) (Layout.layout_pass containerRef refs text spacing1 vc)
     = option_map (map top) (Layout.layout_pass containerRef refs text spacing2 vc)
  /\ (Layout.layout_pass containerRef refs text spacing1 vc = None
      \/ option_map (map char) (Layout.layout_pass containerRef refs text spacing1 vc)
         = Some (JS.split_chars text)).
Proof.
  unfold Layout.layout_pass.
  destruct containerRef as [c |]; [| repeat split; auto].
  destruct (Nat.eqb (List.length refs) 0); [repeat split; auto |].
  simpl. rewrite !compute_positions_chars.
  repeat split; auto.
  now rewrite !compute_positions_top_list.
Qed.

(** C7: every glyph of a run has the same vertical position, chosen by the
    flag: 100 when it is off, and when it is on the value that puts the
    middle of a glyph 64 pixels high at half the container height. *)
Theorem top_is_chosen_by_the_flag
        (c : Container) (refs : list (option MeasureDiv))
        (text : string) (spacing : Q) (vc : bool) (ps : list LetterData) :
  Layout.layout_pass (Some c) refs text spacing vc = Some ps ->
  forall p, In p ps ->
    top p = (if vc then c_offsetHeight c / 2 - 32 else 100)
    /\ (vc = false -> top p = 100)
    /\ (vc = true -> top p + 64 / 2 == c_offsetHeight c / 2).
Proof.
  intros Hrun p Hin.
  unfold Layout.layout_pass in Hrun.
  destruct (Nat.eqb (List.length refs) 0); [discriminate |].
  injection Hrun as <-.
  pose proof (compute_positions_tops c refs text spacing vc) as Htops.
  rewrite Forall_forall in Htops. specialize (Htops p Hin).
  unfold Layout.top_of in Htops.
  split; [exact Htops |]. split; intros ->.
  - exact Htops.
  - rewrite Htops. field.
Qed.

Lemma top_is_chosen_by_the_flag_witness :
  let p := mkLetterData "A" (50 / 2 - 32) ((100 - (0 + 10 + 5 * inject_Z (1 - 1))) / 2) in
  Layout.layout_pass (Some (mkContainer 100 50)) [Some (mkMeasureDiv 10)] "A" 5 true
  = Some [p]
  /\ top p + 64 / 2 == 50 / 2.
Proof.
  split; [reflexivity |].
  apply (top_is_chosen_by_the_flag
           (mkContainer 100 50) [Some (mkMeasureDiv 10)] "A" 5 true
           [mkLetterData "A" (50 / 2 - 32) ((100 - (0 + 10 + 5 * inject_Z (1 - 1))) / 2)]).
  - reflexivity.
  - left. reflexivity.
  - reflexivity.
Defined.

(** * The binding effect *)

Lemma query_draggable_letters_seq (letters : list LetterData) :
  Component.query_draggable_letters letters = seq 0 (List.length letters).
Proof.
  apply nth_error_ext. intro i.
  unfold Component.query_draggable_letters. rewrite mapi_nth.
  destruct (nth_error letters i) as [l |] eqn:Hi; simpl.
  - symmetry. rewrite nth_error_seq.
    assert (i < List.length letters)%nat by (apply nth_error_Some; congruence).
    destruct (Nat.ltb_spec i (List.length letters)); [reflexivity | lia].
  - symmetry. apply nth_error_None. rewrite length_seq.
    now apply nth_error_None.
Qed.

Lemma entries_from_seq (n : nat) :
  forall k, JS.entries_from k (seq k n) = map (fun i => (i, i)) (seq k n).
Proof.
  induction n as [| n IH]; intros k; [reflexivity |].
  simpl seq. rewrite entries_from_cons. simpl. now rewrite IH.
Qed.

Section Binding.

Variable vars_of : nat -> DraggableVars.

Local Abbreviation created_from := (created_from vars_of).

Lemma create_all (n : nat) :
  forall k store,
    fold_left (fun store xi => Drag.create (fst xi) (vars_of (snd xi)) store)
              (JS.entries_from k (seq k n)) store
    = store ++ created_from k n.
Proof.
  unfold created_from.
  induction n as [| n IH]; intros k store.
  - simpl. now rewrite app_nil_r.
  - simpl seq. rewrite entries_from_cons. cbn [fold_left fst snd].
    rewrite IH. unfold Drag.create. simpl. now rewrite <- app_assoc.
Qed.

Lemma created_from_on (el n : nat) :
  forall k,
    Drag.bindings_on el (created_from k n)
    = if (k <=? el)%nat && (el <? k + n)%nat
      then [Drag.mkBinding el (vars_of el)] else [].
Proof.
  unfold Drag.bindings_on, created_from.
  induction n as [| n IH]; intros k.
  - simpl. destruct (k <=? el)%nat eqn:Hk; simpl; [| reflexivity].
    apply Nat.leb_le in Hk.
    destruct (Nat.ltb_spec el (k + 0)); [lia | reflexivity].
  - cbn [seq map filter Drag.target]. rewrite IH.
    destruct (Nat.eqb_spec k el); destruct (Nat.leb_spec (S k) el);
      destruct (Nat.leb_spec k el); destruct (Nat.ltb_spec el (S k + n));
      destruct (Nat.ltb_spec el (k + S n)); subst; cbn [andb];
      try lia; reflexivity.
Qed.

End Binding.

Lemma bind_effect_draggables (c : Container) (p : Component.Props)
      (st : Component.State) :
  Component.draggables (Component.bind_effect (Some c) p st)
  = Component.draggables st
    ++ created_from (Component.draggable_vars c p (Component.letters st))
                    0 (List.length (Component.letters st)).
Proof.
  unfold Component.bind_effect. simpl.
  rewrite query_draggable_letters_seq.
  unfold JS.forEach, JS.entries.
  apply (create_all (Component.draggable_vars c p (Component.letters st))).
Qed.

Lemma bind_effect_bindings_on (c : Container) (p : Component.Props)
      (st : Component.State) (el : nat) :
  Drag.bindings_on el (Component.draggables (Component.bind_effect (Some c) p st))
  = Drag.bindings_on el (Component.draggables st)
    ++ (if (el <? List.length (Component.letters st))%nat
        then [Drag.mkBinding el
                (Component.draggable_vars c p (Component.letters st) el)]
        else []).
Proof.
  rewrite bind_effect_draggables. unfold Drag.bindings_on at 1.
  rewrite filter_app. f_equal.
  apply (created_from_on
           (Component.draggable_vars c p (Component.letters st)) el
           (List.length (Component.letters st)) 0%nat).
Qed.

Lemma handler_at_most_one (letters : list LetterData) (cb : option nat) (i : nat) :
  (List.length (Component.handler letters cb i) <= 1)%nat.
Proof.
  unfold Component.handler.
  destruct (nth_error letters i), cb; simpl; lia.
Qed.

(** Right after mount every visible glyph element has exactly one binding:
    the first run of the binding effect finds no visible glyph, the run
    after [setLetters] finds an empty store. *)
Lemma mount_binds_each_glyph_once
      (c : Container) (measure : string -> nat -> MeasureDiv)
      (p : Component.Props) (el : nat) :
  let st := Component.mount (Some c) measure p in
  List.length (Drag.bindings_on el (Component.draggables st))
  = if (el <? List.length (Component.letters st))%nat then 1%nat else 0%nat.
Proof.
  unfold Component.mount, Component.commit. cbn zeta.
  destruct (Layout.layout_pass (Some c) _ _ _ _) as [ps |].
  - rewrite bind_effect_bindings_on. cbn [Component.letters Component.draggables].
    rewrite bind_effect_draggables. cbn [Component.letters Component.draggables].
    simpl. now destruct (el <? List.length ps)%nat.
  - rewrite bind_effect_bindings_on. cbn [Component.letters Component.draggables].
    simpl. reflexivity.
Qed.

(** C4: mounted with the empty text the component holds no glyph position
    and no drag binding, and in any state the layout pass on the empty text
    either does not run or sets the empty run; both are ordinary results,
    not failures. *)
Theorem empty_text_is_an_empty_run
        (containerRef : option Container) (measure : string -> nat -> MeasureDiv)
        (p : Component.Props) :
  Component.text p = EmptyString ->
  Component.mount containerRef measure p = Component.initial
  /\ Component.letters (Component.mount containerRef measure p) = []
  /\ Component.draggables (Component.mount containerRef measure p) = []
  /\ (forall refs,
        Layout.layout_pass containerRef refs EmptyString
                           (Component.spacing p) (Component.verticalCenter p) = None
        \/ Layout.layout_pass containerRef refs EmptyString
                              (Component.spacing p) (Component.verticalCenter p)
           = Some [])
  /\ (forall st,
        Component.letters st = [] ->
        Component.draggables (Component.bind_effect containerRef p st)
        = Component.draggables st).
Proof.
  intros Ht.
  assert (Hmount : Component.mount containerRef measure p = Component.initial).
  { unfold Component.mount, Component.commit. rewrite Ht.
    destruct containerRef as [c |]; reflexivity. }
  split; [exact Hmount |]. rewrite Hmount.
  split; [reflexivity |]. split; [reflexivity |]. split.
  - intros refs. destruct containerRef as [c |]; [| left; reflexivity].
    destruct refs; [left; reflexivity | right; reflexivity].
  - intros st Hl. destruct containerRef as [c |]; [| reflexivity].
    rewrite bind_effect_draggables, Hl. simpl. apply app_nil_r.
Qed.

Lemma empty_text_is_an_empty_run_witness :
  Component.mount (Some (mkContainer 100 50)) (fun _ _ => mkMeasureDiv 10)
                  (Component.mkProps "" DirBoth 12 true (Some 1%nat) (Some 2%nat))
  = Component.initial.
Proof.
  apply (empty_text_is_an_empty_run
           (Some (mkContainer 100 50)) (fun _ _ => mkMeasureDiv 10)
           (Component.mkProps "" DirBoth 12 true (Some 1%nat) (Some 2%nat))).
  reflexivity.
Defined.

(** * Further properties of the component *)

Section ArrayWrites.

Context {E : Type}.
Variable g : string -> nat -> option E.

Let write (refs : list (option E)) (xi : string * nat) :=
  JS.array_set refs (snd xi) (g (fst xi) (snd xi)).

Lemma writes_length (chars : list string) :
  forall k refs,
    List.length (fold_left write (JS.entries_from k chars) refs)
    = match chars with
      | [] => List.length refs
      | _ :: _ => Nat.max (List.length refs) (k + List.length chars)
      end.
Proof.
  induction chars as [| ch rest IH]; intros k refs; [reflexivity |].
  rewrite entries_from_cons. cbn [fold_left]. rewrite IH.
  unfold write at 1 2. cbn [fst snd]. rewrite array_set_length.
  destruct rest; simpl List.length; lia.
Qed.

Lemma writes_below (chars : list string) :
  forall k refs j,
    (j < k)%nat ->
    JS.array_get (fold_left write (JS.entries_from k chars) refs) j
    = JS.array_get refs j.
Proof.
  induction chars as [| ch rest IH]; intros k refs j Hj; [reflexivity |].
  rewrite entries_from_cons. cbn [fold_left].
  rewrite IH by lia. unfold write. cbn [fst snd].
  apply array_get_set_other. lia.
Qed.

Lemma writes_above (chars : list string) :
  forall k refs j,
    (k + List.length chars <= j)%nat ->
    JS.array_get (fold_left write (JS.entries_from k chars) refs) j
    = JS.array_get refs j.
Proof.
  induction chars as [| ch rest IH]; intros k refs j Hj; [reflexivity |].
  rewrite entries_from_cons. cbn [fold_left]. simpl List.length in Hj.
  rewrite IH by lia. unfold write. cbn [fst snd].
  apply array_get_set_other. lia.
Qed.

Lemma writes_get (chars : list string) :
  forall k refs i ch,
    nth_error chars i = Some ch ->
    JS.array_get (fold_left write (JS.entries_from k chars) refs) (k + i)
    = g ch (k + i)%nat.
Proof.
  induction chars as [| c0 rest IH]; intros k refs i ch Hi.
  - destruct i; discriminate.
  - rewrite entries_from_cons. cbn [fold_left].
    destruct i as [| i].
    + injection Hi as <-. rewrite Nat.add_0_r.
      rewrite writes_below by lia.
      unfold write. cbn [fst snd]. apply array_get_set_same.
    + simpl in Hi. rewrite Nat.add_succ_r.
      apply (IH (S k) _ i ch Hi).
Qed.

(** What a [forEach] of array writes, one per character at its index,
    leaves in the array. *)
Lemma forEach_writes (chars : list string) (refs : list (option E)) :
  let written :=
    JS.forEach (fun ch idx refs => JS.array_set refs idx (g ch idx)) chars refs in
  List.length written = Nat.max (List.length refs) (List.length chars)
  /\ (forall i ch, nth_error chars i = Some ch -> JS.array_get written i = g ch i)
  /\ (forall i, (List.length chars <= i)%nat ->
        JS.array_get written i = JS.array_get refs i).
Proof.
  cbn zeta. unfold JS.forEach, JS.entries. split; [| split].
  - change (List.length (fold_left write (JS.entries_from 0 chars) refs)
            = Nat.max (List.length refs) (List.length chars)).
    rewrite writes_length. destruct chars; simpl; lia.
  - intros i ch Hi. exact (writes_get chars 0 refs i ch Hi).
  - intros i Hi. exact (writes_above chars 0 refs i Hi).
Qed.

End ArrayWrites.

(** X6: what the commit of a render leaves in the ref array.  The array
    never shrinks; every index of the text holds the measuring [div] of this
    render; an index of the previous text that the new text no longer has
    holds [null]; entries past both texts are untouched; and the widths the
    layout pass measures are those of this render only. *)
Theorem render_refreshes_the_ref_array
        (measure : string -> nat -> MeasureDiv) (prev_text text : string)
        (refs0 : list (option MeasureDiv)) :
  let refs := Component.commit_refs measure (Some prev_text) text refs0 in
  List.length refs
  = Nat.max (List.length refs0)
            (Nat.max (String.length prev_text) (String.length text))
  /\ (forall i ch,
        nth_error (JS.split_chars text) i = Some ch ->
        JS.array_get refs i = Some (measure ch i))
  /\ (forall i, (String.length text <= i < String.length prev_text)%nat ->
        JS.array_get refs i = None)
  /\ (forall i,
        (Nat.max (String.length prev_text) (String.length text) <= i)%nat ->
        JS.array_get refs i = JS.array_get refs0 i)
  /\ Layout.measure_widths refs text
     = JS.mapi (fun ch i => offsetWidth (measure ch i)) (JS.split_chars text).
Proof.
  intros refs. subst refs.
  unfold Component.commit_refs, Component.render_measuring_layer, Component.detach_refs.
  destruct (forEach_writes (fun _ _ => @None MeasureDiv)
              (JS.split_chars prev_text) refs0) as (Dlen & Dget & Dabove).
  cbn zeta in *.
  set (detached := JS.forEach _ (JS.split_chars prev_text) refs0) in *.
  destruct (forEach_writes (fun ch idx => Some (measure ch idx))
              (JS.split_chars text) detached) as (Alen & Aget & Aabove).
  cbn zeta in *.
  set (attached := JS.forEach _ (JS.split_chars text) detached) in *.
  rewrite split_chars_length in *.
  assert (Hwidths : forall i ch,
             nth_error (JS.split_chars text) i = Some ch ->
             JS.array_get attached i = Some (measure ch i)) by exact Aget.
  split; [lia |]. split; [exact Aget |]. split; [| split].
  - intros i [Hlo Hhi]. rewrite Aabove by exact Hlo.
    destruct (nth_error (JS.split_chars prev_text) i) as [ch |] eqn:Hi.
    + exact (Dget i ch Hi).
    + apply nth_error_None in Hi. rewrite split_chars_length in Hi. lia.
  - intros i Hi. rewrite Aabove by lia. apply Dabove. lia.
  - apply nth_error_ext. intro i.
    unfold Layout.measure_widths. rewrite !mapi_nth.
    destruct (nth_error (JS.split_chars text) i) as [ch |] eqn:Hi; [| reflexivity].
    simpl. now rewrite (Hwidths i ch Hi).
Qed.

Lemma commit_refs_nonempty (measure : string -> nat -> MeasureDiv)
      (prev_text : option string) (text : string) (refs : list (option MeasureDiv)) :
  refs <> [] ->
  Component.commit_refs measure prev_text text refs <> [].
Proof.
  intros Hrefs Hnil.
  apply (f_equal (@List.length _)) in Hnil.
  unfold Component.commit_refs, Component.render_measuring_layer,
    Component.detach_refs in Hnil.
  destruct (forEach_writes (fun ch idx => Some (measure ch idx)) (JS.split_chars text)
              match prev_text with
              | Some t =>
                  JS.forEach (fun _ idx refs => JS.array_set refs idx None)
                             (JS.split_chars t) refs
              | None => refs
              end) as (Alen & _).
  cbn zeta in Alen. rewrite Alen in Hnil. clear Alen.
  destruct prev_text as [t |].
  - destruct (forEach_writes (fun _ _ => @None MeasureDiv) (JS.split_chars t) refs)
      as (Dlen & _).
    cbn zeta in Dlen. rewrite Dlen in Hnil.
    destruct refs; [congruence | cbn [List.length] in Hnil; lia].
  - destruct refs; [congruence | cbn [List.length] in Hnil; lia].
Qed.

Lemma layout_deps_changed_text (old new : Component.Props) :
  Component.text old <> Component.text new ->
  Component.layout_deps_changed old new = true.
Proof.
  intros H. unfold Component.layout_deps_changed.
  destruct (String.eqb_spec (Component.text old) (Component.text new));
    [contradiction | reflexivity].
Qed.

Lemma bind_effect_letters (containerRef : option Container) (p : Component.Props)
      (st : Component.State) :
  Component.letters (Component.bind_effect containerRef p st) = Component.letters st.
Proof. destruct containerRef; reflexivity. Qed.

Lemma bind_effect_letterRefs (containerRef : option Container) (p : Component.Props)
      (st : Component.State) :
  Component.letterRefs (Component.bind_effect containerRef p st)
  = Component.letterRefs st.
Proof. destruct containerRef; reflexivity. Qed.

(** X7: once a text has been rendered, replacing it by the empty text
    empties the run: the ref array is no longer empty, so the layout pass
    runs on no character and sets no glyph. *)
Theorem clearing_the_text_clears_the_glyphs
        (c : Container) (measure : string -> nat -> MeasureDiv)
        (old new : Component.Props) (st : Component.State) :
  Component.letterRefs st <> [] ->
  Component.text old <> EmptyString ->
  Component.text new = EmptyString ->
  Component.letters (Component.update (Some c) measure old new st) = [].
Proof.
  intros Hrefs Hold Hnew.
  unfold Component.update, Component.commit. cbn zeta.
  rewrite layout_deps_changed_text by congruence.
  cbn [Component.letterRefs].
  rewrite layout_pass_runs by (apply commit_refs_nonempty; exact Hrefs).
  rewrite bind_effect_letters. cbn [Component.letters].
  rewrite Hnew. reflexivity.
Qed.

Lemma clearing_the_text_clears_the_glyphs_witness :
  let c := Some (mkContainer 100 50) in
  let measure := fun (_ : string) (_ : nat) => mkMeasureDiv 10 in
  let old := Component.mkProps "AB" DirBoth 12 true None None in
  let new := Component.mkProps "" DirBoth 12 true None None in
  List.length (Component.letters (Component.mount c measure old)) = 2%nat
  /\ Component.letters
       (Component.update c measure old new (Component.mount c measure old)) = [].
Proof.
  cbv zeta. split; [reflexivity |].
  apply (clearing_the_text_clears_the_glyphs
           (mkContainer 100 50) (fun _ _ => mkMeasureDiv 10)
           (Component.mkProps "AB" DirBoth 12 true None None)
           (Component.mkProps "" DirBoth 12 true None None)).
  - vm_compute. discriminate.
  - discriminate.
  - reflexivity.
Defined.

(** X8: after mount, pressing the glyph at index [i] calls [onDragStart]
    exactly once, with the character at index [i] of the text and [i];
    releasing it calls [onDragEnd] likewise; an absent callback is not
    called. *)
Theorem press_reports_char_and_index
        (c : Container) (measure : string -> nat -> MeasureDiv)
        (p : Component.Props) (i : nat) :
  (i < String.length (Component.text p))%nat ->
  let st := Component.mount (Some c) measure p in
  let ch := nth i (JS.split_chars (Component.text p)) EmptyString in
  Drag.press i (Component.draggables st)
  = match Component.onDragStart p with
    | Some f => [mkCall f ch i]
    | None => []
    end
  /\ Drag.release i (Component.draggables st)
     = match Component.onDragEnd p with
       | Some f => [mkCall f ch i]
       | None => []
       end.
Proof.
  intros Hi st ch. subst st ch.
  assert (Ht : Component.text p <> EmptyString)
    by (destruct (Component.text p); simpl in Hi; [lia | discriminate]).
  unfold Component.mount, Component.commit. cbn zeta.
  cbn [Component.letterRefs Component.letters Component.draggables Component.initial].
  rewrite layout_pass_runs by (apply render_nonempty; exact Ht).
  set (ps := Layout.compute_positions c _ _ _ _).
  assert (Hlen : List.length ps = String.length (Component.text p))
    by apply compute_positions_length.
  assert (Hchars : map char ps = JS.split_chars (Component.text p))
    by apply compute_positions_chars.
  unfold Drag.press, Drag.release.
  rewrite bind_effect_bindings_on.
  cbn [Component.letters Component.draggables].
  rewrite bind_effect_draggables. cbn [Component.letters Component.draggables].
  simpl List.length. simpl created_from. simpl Drag.bindings_on.
  destruct (Nat.ltb_spec i (List.length ps)); [| lia].
  simpl. rewrite !app_nil_r. unfold Component.handler.
  destruct (nth_error ps i) as [letter |] eqn:Hnth;
    [| apply nth_error_None in Hnth; lia].
  assert (Hch : char letter = nth i (JS.split_chars (Component.text p)) EmptyString).
  { rewrite <- Hchars. apply (map_nth_error char) in Hnth.
    symmetry. now apply nth_error_nth. }
  rewrite Hch. split; reflexivity.
Qed.

Lemma press_reports_char_and_index_witness :
  let st := Component.mount (Some (mkContainer 100 50)) (fun _ _ => mkMeasureDiv 10)
              (Component.mkProps "AB" DirBoth 12 true (Some 7%nat) None) in
  (1 < String.length "AB")%nat
  /\ Drag.press 1 (Component.draggables st) = [mkCall 7 "B" 1]
  /\ Drag.release 1 (Component.draggables st) = [].
Proof.
  cbv zeta. split; [simpl; lia |].
  apply (press_reports_char_and_index
           (mkContainer 100 50) (fun _ _ => mkMeasureDiv 10)
           (Component.mkProps "AB" DirBoth 12 true (Some 7%nat) None) 1).
  simpl. lia.
Defined.

(** X9: an update that changes none of [text], [spacing] and
    [verticalCenter] keeps the glyph positions as they are, whatever the
    container and the measurements have become: the layout is not
    recomputed when only the container is resized. *)
Theorem layout_is_kept_without_layout_change
        (containerRef : option Container) (measure : string -> nat -> MeasureDiv)
        (old new : Component.Props) (st : Component.State) :
  Component.layout_deps_changed old new = false ->
  Component.letters (Component.update containerRef measure old new st)
  = Component.letters st.
Proof.
  intros Hdeps. unfold Component.update, Component.commit. cbn zeta.
  rewrite Hdeps.
  destruct (Component.bind_deps_changed old new); [| reflexivity].
  now rewrite bind_effect_letters.
Qed.

Lemma layout_is_kept_without_layout_change_witness :
  let measure := fun (_ : string) (_ : nat) => mkMeasureDiv 10 in
  let p := Component.mkProps "AB" DirBoth 12 true None None in
  let p' := Component.mkProps "AB" DirX (24 / 2) true (Some 3%nat) None in
  let st := Component.mount (Some (mkContainer 100 50)) measure p in
  Component.letters (Component.update (Some (mkContainer 300 80)) measure p p' st)
  = Component.letters st.
Proof.
  cbv zeta.
  apply (layout_is_kept_without_layout_change
           (Some (mkContainer 300 80)) (fun _ _ => mkMeasureDiv 10)
           (Component.mkProps "AB" DirBoth 12 true None None)
           (Component.mkProps "AB" DirX (24 / 2) true (Some 3%nat) None)).
  reflexivity.
Defined.

(** * The layout pass in double precision *)

Module DoubleFacts.

Import Floats.
Local Open Scope float_scope.

















End DoubleFacts.

(** * StaggeredParagraph *)

Lemma forEach_ignoring_index {A S : Type} (f : A -> S -> S) (l : list A) (st : S) :
  JS.forEach (fun x _ st => f x st) l st = fold_left (fun st x => f x st) l st.
Proof.
  unfold JS.forEach, JS.entries. generalize 0%nat as k. revert st.
  induction l as [| x l IH]; intros st k; [reflexivity |].
  rewrite entries_from_cons. simpl. apply IH.
Qed.

Lemma find_app_last {A : Type} (f : A -> bool) (l : list A) (x : A) :
  find f (l ++ [x])
  = match find f l with
    | Some y => Some y
    | None => if f x then Some x else None
    end.
Proof.
  induction l as [| y l IH]; simpl; [reflexivity |].
  destruct (f y); [reflexivity | exact IH].
Qed.

Section StaggerLoop.

Variables (split_lines : nat -> list Stagger.Line) (computedTextIndent : nat -> string).

Let step (st : Stagger.State) (e : nat) : Stagger.State :=
  Stagger.process_element split_lines computedTextIndent e st.

Lemma process_all_refs (elements : list nat) :
  forall st,
    let st' := fold_left step elements st in
    Stagger.splitRef st'
    = Stagger.splitRef st
      ++ Stagger.new_splits split_lines (Stagger.constructed st) elements
    /\ Stagger.active st'
       = Stagger.active st
         ++ Stagger.new_splits split_lines (Stagger.constructed st) elements
    /\ Stagger.elementRef st' = Stagger.elementRef st ++ elements
    /\ Stagger.lines st'
       = Stagger.lines st
         ++ flat_map (fun e => Stagger.html_lines (split_lines e)) elements
    /\ Stagger.constructed st' = (Stagger.constructed st + List.length elements)%nat
    /\ Stagger.gsapLog st' = Stagger.gsapLog st.
Proof.
  induction elements as [| e rest IH]; intros st; cbn zeta.
  - simpl. rewrite !app_nil_r, Nat.add_0_r. repeat split; reflexivity.
  - cbn [fold_left]. destruct (IH (step st e)) as (H1 & H2 & H3 & H4 & H5 & H6).
    cbn zeta in *. rewrite H1, H2, H3, H4, H5, H6.
    unfold step, Stagger.process_element. cbn.
    rewrite <- !app_assoc. simpl. repeat split; try reflexivity. lia.
Qed.

Lemma process_all_indent (elements : list nat) :
  forall st n,
    Stagger.textIndentStyle (fold_left step elements st) n
    = if existsb (fun e => Nat.eqb n e
                           && Stagger.indent_is_set (computedTextIndent e)) elements
      then Some "0"%string
      else Stagger.textIndentStyle st n.
Proof.
  induction elements as [| e rest IH]; intros st n; [reflexivity |].
  cbn [fold_left existsb]. rewrite IH.
  destruct (existsb _ rest); [now rewrite orb_true_r |].
  rewrite orb_false_r.
  unfold step, Stagger.process_element. cbn [Stagger.textIndentStyle].
  destruct (Stagger.indent_is_set (computedTextIndent e)).
  - unfold Stagger.set_style. now rewrite andb_true_r.
  - now rewrite andb_false_r.
Qed.

Lemma process_one_padding (e : nat) (st : Stagger.State) (n : nat) :
  Stagger.paddingLeftStyle (step st e) n
  = if Stagger.pads split_lines computedTextIndent n e
    then Some (computedTextIndent e)
    else Stagger.paddingLeftStyle st n.
Proof.
  unfold step, Stagger.process_element, Stagger.pads.
  cbn [Stagger.paddingLeftStyle Stagger.split_lines_of].
  destruct (Stagger.indent_is_set (computedTextIndent e)); [| reflexivity].
  destruct (split_lines e) as [| l ls]; [reflexivity |].
  cbn [nth_error andb].
  destruct (Stagger.line_isHTMLElement l); [| reflexivity].
  reflexivity.
Qed.

Lemma process_all_padding (elements : list nat) :
  forall st n,
    Stagger.paddingLeftStyle (fold_left step elements st) n
    = match find (Stagger.pads split_lines computedTextIndent n) (rev elements) with
      | Some e => Some (computedTextIndent e)
      | None => Stagger.paddingLeftStyle st n
      end.
Proof.
  induction elements as [| e rest IH]; intros st n; [reflexivity |].
  cbn [fold_left rev]. rewrite IH, find_app_last.
  destruct (find _ (rev rest)); [reflexivity |].
  rewrite process_one_padding.
  now destruct (Stagger.pads split_lines computedTextIndent n e).
Qed.

End StaggerLoop.

Lemma run_state (split_lines : nat -> list Stagger.Line)
      (computedTextIndent : nat -> string) (c : Stagger.ContainerEl)
      (animateOnScroll : bool) (delay : Q) (st : Stagger.State) :
  let st' := Stagger.run split_lines computedTextIndent (Some c)
                         animateOnScroll delay st in
  let elements := Stagger.elements_of c in
  Stagger.splitRef st'
  = Stagger.new_splits split_lines (Stagger.constructed st) elements
  /\ Stagger.active st'
     = Stagger.active st
       ++ Stagger.new_splits split_lines (Stagger.constructed st) elements
  /\ Stagger.elementRef st' = elements
  /\ Stagger.lines st'
     = flat_map (fun e => Stagger.html_lines (split_lines e)) elements
  /\ Stagger.constructed st'
     = (Stagger.constructed st + List.length elements)%nat
  /\ Stagger.gsapLog st'
     = Stagger.gsapLog st
       ++ [Stagger.GsapSet (Stagger.lines st') "100%";
           Stagger.GsapTo (Stagger.lines st')
             (Stagger.tween_vars c animateOnScroll delay)].
Proof.
  cbn zeta. unfold Stagger.run.
  rewrite forEach_ignoring_index.
  match goal with
  | |- context [fold_left ?f ?l ?s0] =>
      destruct (process_all_refs split_lines computedTextIndent l s0)
        as (H1 & H2 & H3 & H4 & H5 & H6)
  end.
  cbn zeta in *. cbn [Stagger.splitRef Stagger.active Stagger.elementRef Stagger.lines
                      Stagger.constructed Stagger.gsapLog] in *.
  rewrite H1, H2, H3, H4, H5, H6. repeat split; reflexivity.
Qed.

Lemma new_splits_elements (split_lines : nat -> list Stagger.Line) (elements : list nat) :
  forall k,
    map Stagger.split_element (Stagger.new_splits split_lines k elements) = elements
    /\ map Stagger.split_lines_of (Stagger.new_splits split_lines k elements)
       = map split_lines elements
    /\ map Stagger.split_id (Stagger.new_splits split_lines k elements)
       = seq k (List.length elements).
Proof.
  induction elements as [| e rest IH]; intros k; simpl.
  - repeat split; reflexivity.
  - destruct (IH (S k)) as (H1 & H2 & H3). rewrite H1, H2, H3.
    repeat split; reflexivity.
Qed.

(** X11: a run of the effect splits every element once, in order, whatever
    the refs held before; the lines it hides and then animates are the
    lines of those splits that are HTML elements, in the same order, and no
    others. *)
Theorem run_splits_every_element
        (split_lines : nat -> list Stagger.Line) (computedTextIndent : nat -> string)
        (c : Stagger.ContainerEl) (animateOnScroll : bool) (delay : Q)
        (st : Stagger.State) :
  let st' := Stagger.run split_lines computedTextIndent (Some c)
                         animateOnScroll delay st in
  let elements := Stagger.elements_of c in
  let animated := flat_map (fun e => Stagger.html_lines (split_lines e)) elements in
  map Stagger.split_element (Stagger.splitRef st') = elements
  /\ map Stagger.split_lines_of (Stagger.splitRef st') = map split_lines elements
  /\ Stagger.elementRef st' = elements
  /\ Stagger.lines st' = animated
  /\ Forall (fun l => Stagger.line_isHTMLElement l = true) animated
  /\ Stagger.gsapLog st'
     = Stagger.gsapLog st
       ++ [Stagger.GsapSet animated "100%";
           Stagger.GsapTo animated (Stagger.tween_vars c animateOnScroll delay)].
Proof.
  cbn zeta.
  destruct (run_state split_lines computedTextIndent c animateOnScroll delay st)
    as (H1 & _ & H3 & H4 & _ & H6).
  cbn zeta in *.
  destruct (new_splits_elements split_lines (Stagger.elements_of c)
              (Stagger.constructed st)) as (E1 & E2 & _).
  rewrite H1, H3, H6, H4. repeat split; auto.
  apply Forall_forall. intros l Hl.
  apply in_flat_map in Hl. destruct Hl as (e & _ & Hl).
  unfold Stagger.html_lines in Hl. apply filter_In in Hl. tauto.
Qed.

Lemma run_styles (split_lines : nat -> list Stagger.Line)
      (computedTextIndent : nat -> string) (c : Stagger.ContainerEl)
      (animateOnScroll : bool) (delay : Q) (st : Stagger.State) (n : nat) :
  let st' := Stagger.run split_lines computedTextIndent (Some c)
                         animateOnScroll delay st in
  Stagger.textIndentStyle st' n
  = (if existsb (fun e => Nat.eqb n e
                          && Stagger.indent_is_set (computedTextIndent e))
                (Stagger.elements_of c)
     then Some "0"%string
     else Stagger.textIndentStyle st n)
  /\ Stagger.paddingLeftStyle st' n
     = match find (Stagger.pads split_lines computedTextIndent n)
                  (rev (Stagger.elements_of c)) with
       | Some e => Some (computedTextIndent e)
       | None => Stagger.paddingLeftStyle st n
       end.
Proof.
  cbn zeta. unfold Stagger.run.
  rewrite forEach_ignoring_index.
  cbn [Stagger.textIndentStyle Stagger.paddingLeftStyle].
  split.
  - now rewrite process_all_indent.
  - now rewrite process_all_padding.
Qed.

(** X12: a run sets the inline text indent of an element to "0" exactly
    when the element is one it splits and its computed indent is neither
    empty nor "0px"; every other node keeps the indent it had. *)
Theorem run_zeroes_the_set_indents
        (split_lines : nat -> list Stagger.Line) (computedTextIndent : nat -> string)
        (c : Stagger.ContainerEl) (animateOnScroll : bool) (delay : Q)
        (st : Stagger.State) (n : nat) :
  Stagger.textIndentStyle
    (Stagger.run split_lines computedTextIndent (Some c) animateOnScroll delay st) n
  = if existsb (fun e => Nat.eqb n e
                         && negb (String.eqb (computedTextIndent e) "")
                         && negb (String.eqb (computedTextIndent e) "0px"))
               (Stagger.elements_of c)
    then Some "0"%string
    else Stagger.textIndentStyle st n.
Proof.
  destruct (run_styles split_lines computedTextIndent c animateOnScroll delay st n)
    as [H _].
  cbn zeta in H. rewrite H. clear H.
  replace (existsb (fun e => Nat.eqb n e
                             && negb (String.eqb (computedTextIndent e) "")
                             && negb (String.eqb (computedTextIndent e) "0px"))
                   (Stagger.elements_of c))
    with (existsb (fun e => Nat.eqb n e
                            && Stagger.indent_is_set (computedTextIndent e))
                  (Stagger.elements_of c)); [reflexivity |].
  induction (Stagger.elements_of c) as [| e l IH]; [reflexivity |].
  cbn [existsb]. rewrite IH. unfold Stagger.indent_is_set.
  rewrite andb_assoc. reflexivity.
Qed.

(** X13: after a run the left padding of a node is the computed indent of
    the last split element that has the node as first line, provided that
    line is an HTML element and the indent is set; a node that is no such
    first line keeps the padding it had. *)
Theorem run_pads_the_first_lines
        (split_lines : nat -> list Stagger.Line) (computedTextIndent : nat -> string)
        (c : Stagger.ContainerEl) (animateOnScroll : bool) (delay : Q)
        (st : Stagger.State) (n : nat) :
  Stagger.paddingLeftStyle
    (Stagger.run split_lines computedTextIndent (Some c) animateOnScroll delay st) n
  = match find (Stagger.pads split_lines computedTextIndent n)
               (rev (Stagger.elements_of c)) with
    | Some e => Some (computedTextIndent e)
    | None => Stagger.paddingLeftStyle st n
    end.
Proof.
  apply (run_styles split_lines computedTextIndent c animateOnScroll delay st n).
Qed.

(** X14: an indent with no HTML first line to carry it is lost: when the
    container itself is split, its indent is set, and the split has no line
    or a first line that is not an HTML element, the run still sets the
    element's text indent to "0" and writes no padding anywhere. *)
Theorem indent_without_first_line_is_dropped
        (split_lines : nat -> list Stagger.Line) (computedTextIndent : nat -> string)
        (c : Stagger.ContainerEl) (animateOnScroll : bool) (delay : Q)
        (st : Stagger.State) :
  Stagger.hasCopyWrapper c = false ->
  Stagger.indent_is_set (computedTextIndent (Stagger.self c)) = true ->
  match split_lines (Stagger.self c) with
  | [] => True
  | firstLine :: _ => Stagger.line_isHTMLElement firstLine = false
  end ->
  let st' := Stagger.run split_lines computedTextIndent (Some c)
                         animateOnScroll delay st in
  Stagger.textIndentStyle st' (Stagger.self c) = Some "0"%string
  /\ forall n, Stagger.paddingLeftStyle st' n = Stagger.paddingLeftStyle st n.
Proof.
  intros Hwrap Hset Hfirst st'. subst st'. split.
  - destruct (run_styles split_lines computedTextIndent c animateOnScroll delay st
                (Stagger.self c)) as [H _].
    cbn zeta in H. rewrite H. unfold Stagger.elements_of. rewrite Hwrap.
    simpl. now rewrite Nat.eqb_refl, Hset.
  - intros n.
    destruct (run_styles split_lines computedTextIndent c animateOnScroll delay st n)
      as [_ H].
    cbn zeta in H. rewrite H. unfold Stagger.elements_of. rewrite Hwrap.
    simpl. unfold Stagger.pads. rewrite Hset.
    destruct (split_lines (Stagger.self c)) as [| l ls]; [reflexivity |].
    now rewrite Hfirst.
Qed.

Lemma indent_without_first_line_is_dropped_witness :
  let st' := Stagger.run (fun _ => [Stagger.mkLine 5 false]) (fun _ => "32px"%string)
               (Some (Stagger.mkContainerEl 1 false [])) true 0 Stagger.initial in
  Stagger.textIndentStyle st' 1%nat = Some "0"%string
  /\ forall n, Stagger.paddingLeftStyle st' n = None.
Proof.
  cbv zeta.
  apply (indent_without_first_line_is_dropped
           (fun _ => [Stagger.mkLine 5 false]) (fun _ => "32px"%string)
           (Stagger.mkContainerEl 1 false []) true 0 Stagger.initial);
    reflexivity.
Defined.

Lemma filter_filter {A : Type} (f g : A -> bool) (l : list A) :
  filter f (filter g l) = filter (fun x => g x && f x) l.
Proof.
  induction l as [| x l IH]; simpl; [reflexivity |].
  destruct (g x); simpl; [destruct (f x) |]; now rewrite IH.
Qed.

Lemma filter_all {A : Type} (f : A -> bool) (l : list A) :
  Forall (fun x => f x = true) l -> filter f l = l.
Proof.
  induction 1 as [| x l Hx _ IH]; simpl; [reflexivity |].
  now rewrite Hx, IH.
Qed.

Lemma filter_none {A : Type} (f : A -> bool) (l : list A) :
  Forall (fun x => f x = false) l -> filter f l = [].
Proof.
  induction 1 as [| x l Hx _ IH]; simpl; [reflexivity |].
  now rewrite Hx.
Qed.

Lemma revert_all (splits : list Stagger.Split) :
  forall act,
    JS.forEach (fun split _ act => Stagger.revert split act) splits act
    = filter (fun a => negb (existsb (fun s => Nat.eqb (Stagger.split_id a)
                                                      (Stagger.split_id s)) splits))
             act.
Proof.
  intros act. rewrite forEach_ignoring_index. revert act.
  induction splits as [| s rest IH]; intros act.
  - simpl. symmetry. apply filter_all. apply Forall_forall. reflexivity.
  - cbn [fold_left existsb]. rewrite IH. unfold Stagger.revert.
    rewrite filter_filter. apply filter_ext. intros a.
    now rewrite negb_orb.
Qed.

Lemma new_splits_ids (split_lines : nat -> list Stagger.Line) (elements : list nat) :
  forall k s,
    In s (Stagger.new_splits split_lines k elements) ->
    (k <= Stagger.split_id s < k + List.length elements)%nat.
Proof.
  induction elements as [| e rest IH]; intros k s Hin; [contradiction |].
  destruct Hin as [<- | Hin]; simpl.
  - lia.
  - apply IH in Hin. lia.
Qed.

Lemma run_fresh (split_lines : nat -> list Stagger.Line)
      (computedTextIndent : nat -> string) (c : Stagger.ContainerEl)
      (animateOnScroll : bool) (delay : Q) (st : Stagger.State) :
  Stagger.fresh st ->
  Stagger.fresh (Stagger.run split_lines computedTextIndent (Some c)
                             animateOnScroll delay st).
Proof.
  intros Hfresh.
  destruct (run_state split_lines computedTextIndent c animateOnScroll delay st)
    as (_ & Hact & _ & _ & Hcons & _).
  cbn zeta in *. unfold Stagger.fresh in *. rewrite Hact, Hcons.
  apply Forall_app. split.
  - eapply Forall_impl; [| exact Hfresh]. simpl. intros a Ha. lia.
  - apply Forall_forall. intros a Ha.
    apply (new_splits_ids split_lines) in Ha. lia.
Qed.

Lemma cleanup_after_run (split_lines : nat -> list Stagger.Line)
      (computedTextIndent : nat -> string) (c : Stagger.ContainerEl)
      (animateOnScroll : bool) (delay : Q) (st : Stagger.State) :
  Stagger.fresh st ->
  Stagger.active
    (Stagger.cleanup (Stagger.run split_lines computedTextIndent (Some c)
                                  animateOnScroll delay st))
  = Stagger.active st.
Proof.
  intros Hfresh.
  destruct (run_state split_lines computedTextIndent c animateOnScroll delay st)
    as (Hsplit & Hact & _).
  cbn zeta in *.
  unfold Stagger.cleanup. cbn [Stagger.active].
  rewrite revert_all, Hsplit, Hact, filter_app.
  rewrite filter_all, filter_none; [apply app_nil_r | |].
  - apply Forall_forall. intros a Ha. apply negb_false_iff.
    apply existsb_exists. exists a. split; [exact Ha | apply Nat.eqb_refl].
  - unfold Stagger.fresh in Hfresh. rewrite Forall_forall in Hfresh.
    apply Forall_forall. intros a Ha. apply negb_true_iff.
    apply not_true_is_false. intros Hex.
    apply existsb_exists in Hex. destruct Hex as (s & Hs & Heq).
    apply Nat.eqb_eq in Heq.
    apply (new_splits_ids split_lines) in Hs.
    specialize (Hfresh a Ha). lia.
Qed.

Lemma cleanup_again (st : Stagger.State) (k : nat) :
  Stagger.active (Nat.iter (S k) Stagger.cleanup st)
  = Stagger.active (Stagger.cleanup st)
  /\ Stagger.splitRef (Nat.iter (S k) Stagger.cleanup st) = Stagger.splitRef st.
Proof.
  induction k as [| k [IHa IHs]]; [split; reflexivity |].
  change (Nat.iter (S (S k)) Stagger.cleanup st)
    with (Stagger.cleanup (Nat.iter (S k) Stagger.cleanup st)).
  split; [| unfold Stagger.cleanup at 1; cbn [Stagger.splitRef]; exact IHs].
  unfold Stagger.cleanup at 1. cbn [Stagger.active].
  rewrite IHs, IHa, revert_all.
  unfold Stagger.cleanup. cbn [Stagger.active]. rewrite revert_all.
  rewrite filter_filter. apply filter_ext. intros a.
  now destruct (negb _).
Qed.

Lemma runs_accumulate (split_lines : nat -> list Stagger.Line)
      (computedTextIndent : nat -> string) (c : Stagger.ContainerEl)
      (deps : list (bool * Q)) :
  forall st,
    Stagger.fresh st ->
    Stagger.fresh (Stagger.runs split_lines computedTextIndent c deps st)
    /\ exists kept,
         Stagger.active (Stagger.runs split_lines computedTextIndent c deps st)
         = Stagger.active st ++ kept
         /\ map Stagger.split_element kept
            = List.concat (map (fun _ => Stagger.elements_of c) deps).
Proof.
  unfold Stagger.runs.
  induction deps as [| d rest IH]; intros st Hfresh.
  - split; [exact Hfresh |]. exists []. simpl. now rewrite app_nil_r.
  - cbn [fold_left map List.concat].
    pose proof (run_fresh split_lines computedTextIndent c (fst d) (snd d) st Hfresh)
      as Hfresh1.
    destruct (IH _ Hfresh1) as (Hfr & kept & Hact & Hkept).
    split; [exact Hfr |].
    destruct (run_state split_lines computedTextIndent c (fst d) (snd d) st)
      as (_ & Hact1 & _).
    cbn zeta in Hact1.
    exists (Stagger.new_splits split_lines (Stagger.constructed st)
                               (Stagger.elements_of c) ++ kept).
    split.
    + rewrite Hact, Hact1. now rewrite app_assoc.
    + rewrite map_app, Hkept. f_equal. apply new_splits_elements.
Qed.

(** X15: the cleanup reverts only what the last run split.  It reads
    [splitRef] when it is called, and every run resets [splitRef]: when the
    effect has run again before the cleanups of its earlier runs are called,
    those cleanups, however many, revert the instances of the last run and
    no others; the instances of each earlier run, one per split element,
    stay active. *)
Theorem cleanups_revert_only_the_last_run
        (split_lines : nat -> list Stagger.Line) (computedTextIndent : nat -> string)
        (c : Stagger.ContainerEl) (deps : list (bool * Q))
        (animateOnScroll : bool) (delay : Q) (st : Stagger.State) :
  Stagger.fresh st ->
  let before := Stagger.runs split_lines computedTextIndent c deps st in
  let last := Stagger.run split_lines computedTextIndent (Some c)
                          animateOnScroll delay before in
  (forall k, Stagger.active (Nat.iter (S k) Stagger.cleanup last)
             = Stagger.active before)
  /\ exists kept,
       Stagger.active before = Stagger.active st ++ kept
       /\ map Stagger.split_element kept
          = List.concat (map (fun _ => Stagger.elements_of c) deps).
Proof.
  intros Hfresh before last.
  destruct (runs_accumulate split_lines computedTextIndent c deps st Hfresh)
    as (Hfr & Hkept).
  fold before in Hfr, Hkept.
  split; [| exact Hkept].
  intros k. destruct (cleanup_again last k) as [Ha _]. rewrite Ha.
  apply cleanup_after_run. exact Hfr.
Qed.

Lemma cleanups_revert_only_the_last_run_witness :
  let sl := fun e : nat => [Stagger.mkLine (10 * e) true] in
  let ci := fun _ : nat => "0px"%string in
  let c := Stagger.mkContainerEl 0 true [1; 2]%nat in
  let before := Stagger.runs sl ci c [(true, 0); (false, 1 # 2)] Stagger.initial in
  let last := Stagger.run sl ci (Some c) true 0 before in
  map Stagger.split_element (Stagger.active before) = [1; 2; 1; 2]%nat
  /\ forall k, Stagger.active (Nat.iter (S k) Stagger.cleanup last)
               = Stagger.active before.
Proof.
  cbv zeta. split; [reflexivity |].
  apply (cleanups_revert_only_the_last_run
           (fun e : nat => [Stagger.mkLine (10 * e) true]) (fun _ : nat => "0px"%string)
           (Stagger.mkContainerEl 0 true [1; 2]%nat)
           [(true, 0); (false, 1 # 2)] true 0 Stagger.initial).
  constructor.
Defined.

(** * Rebinding *)

Lemma active_replacing_subset (log : Drag.Store) (b : Drag.Binding) :
  In b (Drag.active_replacing log) -> In b log.
Proof.
  induction log as [| a later IH]; simpl; [tauto |].
  destruct (existsb _ later); simpl; intuition.
Qed.

Lemma active_replacing_at_most_one (log : Drag.Store) (el : nat) :
  (List.length (Drag.bindings_on el (Drag.active_replacing log)) <= 1)%nat.
Proof.
  induction log as [| a later IH]; simpl; [lia |].
  destruct (existsb _ later) eqn:Hex; [exact IH |].
  unfold Drag.bindings_on in *. simpl.
  destruct (Nat.eqb_spec (Drag.target a) el) as [Heq | Hne]; [| exact IH].
  assert (Hnone : filter (fun b => Nat.eqb (Drag.target b) el)
                         (Drag.active_replacing later) = []).
  { apply filter_none. apply Forall_forall. intros b Hb.
    apply active_replacing_subset in Hb.
    apply not_true_is_false. intros Ht.
    assert (existsb (fun b' => Nat.eqb (Drag.target b') (Drag.target a)) later = true).
    { apply existsb_exists. exists b. split; [exact Hb |].
      apply Nat.eqb_eq in Ht. apply Nat.eqb_eq. congruence. }
    congruence. }
  rewrite Hnone. simpl. lia.
Qed.

Lemma active_replacing_app (l1 l2 : Drag.Store) :
  Drag.active_replacing (l1 ++ l2)
  = filter (fun b => negb (existsb (fun b' => Nat.eqb (Drag.target b') (Drag.target b)) l2))
           (Drag.active_replacing l1)
    ++ Drag.active_replacing l2.
Proof.
  induction l1 as [| b l1 IH]; [reflexivity |].
  cbn [app Drag.active_replacing]. rewrite existsb_app.
  destruct (existsb _ l1); [exact IH |].
  cbn [orb filter].
  destruct (existsb _ l2); cbn [negb]; rewrite IH; reflexivity.
Qed.

Lemma created_targets (vars_of : nat -> DraggableVars) (el n : nat) :
  forall k,
    existsb (fun b' => Nat.eqb (Drag.target b') el) (created_from vars_of k n)
    = (k <=? el)%nat && (el <? k + n)%nat.
Proof.
  unfold created_from.
  induction n as [| n IH]; intros k.
  - simpl. destruct (Nat.leb_spec k el), (Nat.ltb_spec el (k + 0));
      simpl; try reflexivity; lia.
  - cbn [seq map existsb Drag.target]. rewrite IH.
    destruct (Nat.eqb_spec k el); destruct (Nat.leb_spec (S k) el);
      destruct (Nat.leb_spec k el); destruct (Nat.ltb_spec el (S k + n));
      destruct (Nat.ltb_spec el (k + S n)); subst; cbn [andb orb];
      try lia; reflexivity.
Qed.

Lemma active_replacing_created (vars_of : nat -> DraggableVars) (n : nat) :
  forall k,
    Drag.active_replacing (created_from vars_of k n) = created_from vars_of k n.
Proof.
  induction n as [| n IH]; intros k; [reflexivity |].
  change (created_from vars_of k (S n))
    with (Drag.mkBinding k (vars_of k) :: created_from vars_of (S k) n).
  cbn [Drag.active_replacing Drag.target].
  rewrite created_targets, IH.
  destruct (Nat.leb_spec (S k) k); [lia | reflexivity].
Qed.

Lemma rebinding_replaces (c : Container) (p : Component.Props)
      (st : Component.State) (el : nat) :
  Drag.bindings_on el
    (Drag.active_replacing
       (Component.draggables (Component.bind_effect (Some c) p st)))
  = if (el <? List.length (Component.letters st))%nat
    then [Drag.mkBinding el (Component.draggable_vars c p (Component.letters st) el)]
    else Drag.bindings_on el (Drag.active_replacing (Component.draggables st)).
Proof.
  rewrite bind_effect_draggables, active_replacing_app, active_replacing_created.
  set (n := List.length (Component.letters st)).
  set (vars_of := Component.draggable_vars c p (Component.letters st)).
  unfold Drag.bindings_on at 1. rewrite filter_app.
  fold (Drag.bindings_on el (created_from vars_of 0 n)).
  rewrite (created_from_on vars_of el n 0). rewrite filter_filter.
  cbn [Nat.leb andb Nat.add].
  destruct (Nat.ltb_spec el n) as [Hlt | Hge].
  - rewrite filter_none; [reflexivity |].
    apply Forall_forall. intros b _.
    destruct (Nat.eqb_spec (Drag.target b) el) as [-> |];
      [| now rewrite andb_false_r].
    rewrite created_targets. cbn [Nat.leb andb Nat.add].
    destruct (Nat.ltb_spec el n); [reflexivity | lia].
  - rewrite app_nil_r. apply filter_ext. intros b.
    destruct (Nat.eqb_spec (Drag.target b) el) as [-> |];
      [| now rewrite andb_false_r].
    rewrite created_targets. cbn [Nat.leb andb Nat.add].
    destruct (Nat.ltb_spec el n); [lia | reflexivity].
Qed.

Lemma bind_effect_handlers (containerRef : option Container) (p : Component.Props)
      (st : Component.State) :
  Forall (fun b => (List.length (onPress (Drag.vars b)) <= 1)%nat
                   /\ (List.length (onRelease (Drag.vars b)) <= 1)%nat)
         (Component.draggables st) ->
  Forall (fun b => (List.length (onPress (Drag.vars b)) <= 1)%nat
                   /\ (List.length (onRelease (Drag.vars b)) <= 1)%nat)
         (Component.draggables (Component.bind_effect containerRef p st)).
Proof.
  intros H. destruct containerRef as [c |]; [| exact H].
  rewrite bind_effect_draggables. apply Forall_app. split; [exact H |].
  unfold created_from. apply Forall_forall. intros b Hb.
  apply in_map_iff in Hb. destruct Hb as (i & <- & _).
  simpl. split; apply handler_at_most_one.
Qed.

Lemma reachable_handlers (st : Component.State) :
  Component.Reachable st ->
  Forall (fun b => (List.length (onPress (Drag.vars b)) <= 1)%nat
                   /\ (List.length (onRelease (Drag.vars b)) <= 1)%nat)
         (Component.draggables st).
Proof.
  assert (Hcommit : forall containerRef measure prev p st0,
             Forall (fun b => (List.length (onPress (Drag.vars b)) <= 1)%nat
                              /\ (List.length (onRelease (Drag.vars b)) <= 1)%nat)
                    (Component.draggables st0) ->
             Forall (fun b => (List.length (onPress (Drag.vars b)) <= 1)%nat
                              /\ (List.length (onRelease (Drag.vars b)) <= 1)%nat)
                    (Component.draggables
                       (Component.commit containerRef measure prev p st0))).
  { intros containerRef measure prev p st0 H0.
    unfold Component.commit. cbn zeta.
    destruct prev as [q |];
      [destruct (Component.layout_deps_changed q p);
       destruct (Component.bind_deps_changed q p) |];
      try match goal with
          | |- context [Layout.layout_pass ?a ?b ?c ?d ?e] =>
              destruct (Layout.layout_pass a b c d e)
          end;
      repeat first [ apply bind_effect_handlers
                   | progress cbn [Component.draggables] ];
      exact H0. }
  induction 1 as [containerRef measure p | containerRef measure old new st0 _ IH].
  - apply Hcommit. constructor.
  - apply Hcommit. exact IH.
Qed.

(** C3 fails as stated, whichever way the drag library treats an element
    that is bound again.  If every binding stays active until it is disposed
    of, a change of [direction] leaves two active bindings on the one glyph
    element and a press calls the callback twice.  If the library kills the
    earlier binding of an element that is bound again, shortening the text
    from "AB" to "A" leaves the binding of the glyph "B" active: it was
    created before the rebinding and nothing releases it. *)
Lemma rebinding_does_not_release_every_binding :
  let containerRef := Some (mkContainer 100 50) in
  let measure := fun (_ : string) (_ : nat) => mkMeasureDiv 10 in
  let pAB := Component.mkProps "AB" DirBoth 12 true (Some 1%nat) (Some 2%nat) in
  let pABx := Component.mkProps "AB" DirX 12 true (Some 1%nat) (Some 2%nat) in
  let pA := Component.mkProps "A" DirBoth 12 true (Some 1%nat) (Some 2%nat) in
  let mounted := Component.mount containerRef measure pAB in
  let turned := Component.update containerRef measure pAB pABx mounted in
  let shortened := Component.update containerRef measure pAB pA mounted in
  (map type (map Drag.vars (Drag.bindings_on 0 (Component.draggables turned)))
   = ["x,y"%string; "x"%string]
   /\ Drag.press 0 (Component.draggables turned) = [mkCall 1 "A" 0; mkCall 1 "A" 0])
  /\ (map char (Component.letters shortened) = ["A"%string]
      /\ Drag.press 1 (Drag.active_replacing (Component.draggables mounted))
         = [mkCall 1 "B" 1]
      /\ Drag.press 1 (Drag.active_replacing (Component.draggables shortened))
         = [mkCall 1 "B" 1]
      /\ Drag.bindings_on 1 (Drag.active_replacing (Component.draggables shortened))
         = Drag.bindings_on 1 (Component.draggables mounted)).
Proof. cbv zeta. repeat split; reflexivity. Qed.

(** C3, amended: the component releases nothing itself; it binds every
    visible glyph element anew.  When the drag library kills the earlier
    binding of an element that is bound again, every glyph element has at
    most one active binding at every reachable state and a press or a
    release calls its callback at most once; after a run of the binding
    effect the active binding of each visible glyph element is the one that
    run created, and the binding of an element that is no longer rendered
    is left as it was. *)
Theorem rebinding_replaces_when_the_library_does (st : Component.State) :
  Component.Reachable st ->
  (forall el,
      let held := Drag.active_replacing (Component.draggables st) in
      (List.length (Drag.bindings_on el held) <= 1)%nat
      /\ (List.length (Drag.press el held) <= 1)%nat
      /\ (List.length (Drag.release el held) <= 1)%nat)
  /\ (forall c p el,
        Drag.bindings_on el
          (Drag.active_replacing
             (Component.draggables (Component.bind_effect (Some c) p st)))
        = if (el <? List.length (Component.letters st))%nat
          then [Drag.mkBinding el
                  (Component.draggable_vars c p (Component.letters st) el)]
          else Drag.bindings_on el
                 (Drag.active_replacing (Component.draggables st))).
Proof.
  intros Hreach. split; [| intros c p el; apply rebinding_replaces].
  intros el held. subst held.
  pose proof (active_replacing_at_most_one (Component.draggables st) el) as Hone.
  split; [exact Hone |].
  pose proof (reachable_handlers st Hreach) as Hh. rewrite Forall_forall in Hh.
  unfold Drag.press, Drag.release.
  destruct (Drag.bindings_on el (Drag.active_replacing (Component.draggables st)))
    as [| b rest] eqn:Hb; [simpl; lia |].
  destruct rest as [| b' rest]; [| simpl in Hone; lia].
  assert (Hin : In b (Component.draggables st)).
  { apply active_replacing_subset.
    assert (Hin' : In b (Drag.bindings_on el
                           (Drag.active_replacing (Component.draggables st))))
      by (rewrite Hb; left; reflexivity).
    unfold Drag.bindings_on in Hin'. apply filter_In in Hin'. tauto. }
  destruct (Hh b Hin) as [Hp Hr].
  simpl. rewrite !app_nil_r. split; assumption.
Qed.

Lemma rebinding_replaces_when_the_library_does_witness :
  let containerRef := Some (mkContainer 100 50) in
  let measure := fun (_ : string) (_ : nat) => mkMeasureDiv 10 in
  let pAB := Component.mkProps "AB" DirBoth 12 true (Some 1%nat) (Some 2%nat) in
  let pABx := Component.mkProps "AB" DirX 12 true (Some 1%nat) (Some 2%nat) in
  let turned :=
    Component.update containerRef measure pAB pABx
                     (Component.mount containerRef measure pAB) in
  Component.Reachable turned
  /\ (List.length (Drag.bindings_on 0
        (Drag.active_replacing (Component.draggables turned))) <= 1)%nat
  /\ (List.length (Drag.press 0
        (Drag.active_replacing (Component.draggables turned))) <= 1)%nat
  /\ (List.length (Drag.release 0
        (Drag.active_replacing (Component.draggables turned))) <= 1)%nat.
Proof.
  cbv zeta.
  assert (Hreach :
            Component.Reachable
              (Component.update (Some (mkContainer 100 50))
                 (fun _ _ => mkMeasureDiv 10)
                 (Component.mkProps "AB" DirBoth 12 true (Some 1%nat) (Some 2%nat))
                 (Component.mkProps "AB" DirX 12 true (Some 1%nat) (Some 2%nat))
                 (Component.mount (Some (mkContainer 100 50))
                    (fun _ _ => mkMeasureDiv 10)
                    (Component.mkProps "AB" DirBoth 12 true (Some 1%nat) (Some 2%nat)))))
    by (apply Component.reach_update, Component.reach_mount).
  split; [exact Hreach |].
  apply (rebinding_replaces_when_the_library_does _ Hreach).
Defined.
